(** * web3-events: the events emitter of [src/events.ts]

    A shallow embedding of [BaseEventsEmitter] and [PollingEventsEmitter].

    - Block numbers, batch sizes and confirmation counts are JavaScript
      numbers holding integers; they are modelled by [Z].  The truthiness
      tests the source applies to them ([!n], [n || d], [c && ...]) are
      written out with [truthy].
    - An [async] method is a computation in the monad [M]: it threads the
      mutable state (block tracker, [Event] table, everything observable
      that was emitted, logged or requested) and ends by returning, by
      rejecting with an exception, or by running out of fuel (the batch
      loop need not terminate).
    - The collaborators ([eth], [contract], the storage behind [Event]) are
      answers recorded in a [World]; each of them may fail.
    - Listeners are taken to return normally.  Their failures never reach
      the control flow of the emitter (every [emit] is followed by a
      [catch], or sits in a [try]), so only the ['error'] payloads they
      would cause are absent from the trace.
    - The semaphore is not modelled: one cycle runs at a time. *)

From Stdlib Require Import ZArith List String Bool Lia.
Import ListNotations.
Open Scope string_scope.
Open Scope list_scope.
Open Scope Z_scope.

(** ** Data *)

Record BlockHeader := mkHeader { number : Z; hash : string }.

(** [EventData] of web3-eth-contract, the fields the emitter reads. *)
Record EventData := mkEvent {
  event : string;
  blockNumber : Z;
  blockHash : string;
  transactionHash : string;
  logIndex : Z }.

(** [EventInterface]: a row of the [Event] table, as [serializeEvent]
    builds it.  [content] is [JSON.stringify(data)]; the data is kept. *)
Record EventInterface := mkRow {
  row_blockNumber : Z;
  row_transactionHash : string;
  row_logIndex : Z;
  row_contractAddress : string;
  row_event : string;
  row_targetConfirmation : Z;
  row_content : EventData }.

(** A block designation, [number | string]. *)
Inductive BlockId :=
| Num (n : Z)
| Tag (s : string).

(** An entry of [topics]: [string[] | string]. *)
Inductive Topic :=
| One (t : string)
| AnyOf (ts : list string).

(** What [Math.ceil] of a quotient of integers can be. *)
Inductive Count :=
| Finite (n : Z)
| Infinity.

Record ProgressInfo := mkProgress {
  stepsComplete : Z;
  totalSteps : Count;
  stepFromBlock : Z;
  stepToBlock : Z }.

(** Exceptions: [new Error(msg)], [new TypeError(msg)], and a failure of a
    collaborator, of which only [e.name] is inspected. *)
Inductive exn :=
| JsError (msg : string)
| JsTypeError (msg : string)
| Foreign (name : string).

Definition exn_name (e : exn) : string :=
  match e with
  | JsError _ => "Error"
  | JsTypeError _ => "TypeError"
  | Foreign name => name
  end.

Record ModelConfirmator := mkConfirmator { confirmator_address : string }.

(** Everything a cycle does that can be observed from outside, oldest
    first: payloads on the channels of the emitter, requests to
    [contract.getPastEvents], and [logger.error]. *)
Inductive Obs :=
| EmitNewEvent (e : EventData)
| EmitProgress (p : ProgressInfo)
| EmitReorg
| EmitReorgOutOfRange (n : Z)
| EmitInitFinished
| EmitInvalidConfirmation (r : EventInterface)
| EmitError (e : exn)
| CallGetPastEvents (fromBlock : BlockId) (toBlock : Z) (tps : option (list Topic))
| LogError (e : exn).

(** The fields of [this] fixed by the constructor. *)
Record Emitter := mkEmitter {
  startingBlock : BlockId;
  eventNames : option (list string);
  confirmations : Z;
  topics : option (list Topic);
  batchSize : Z;
  confirmator : option ModelConfirmator;
  contract_address : string;
  serialListeners : bool;
  serialProcessing : bool }.

Record EventsEmitterOptions := mkOptions {
  opt_topics : option (list Topic);
  opt_events : option (list string);
  opt_batchSize : option Z;
  opt_confirmations : option Z;
  opt_startingBlock : option BlockId;
  opt_confirmator : option ModelConfirmator;
  opt_serialListeners : option bool;
  opt_serialProcessing : option bool }.

(** The mutable part: the two cursors of the block tracker, the [Event]
    table and the trace. *)
Record State := mkState {
  lastFetchedBlock : option (Z * string);
  lastProcessedBlock : option (Z * string);
  table : list EventInterface;
  trace : list Obs }.

(** The collaborators.  [insertFault tbl rows] is the verdict of the
    storage on [Event.bulkCreate(rows)] when the table holds [tbl],
    [destroyFault tbl addr] its verdict on [Event.destroy] for the
    contract at [addr], and [confirmatorFault tbl events] the failure, if
    any, of [confirmator.checkDroppedTransactions(events)]. *)
Record World := mkWorld {
  getBlockNumber : exn + Z;
  getBlockLatest : exn + BlockHeader;
  getBlock : Z -> exn + BlockHeader;
  getPastEvents : BlockId -> Z -> option (list Topic) -> exn + list EventData;
  insertFault : list EventInterface -> list EventInterface -> option exn;
  destroyFault : list EventInterface -> string -> option exn;
  confirmatorFault : list EventInterface -> list EventData -> option exn }.

(** ** Computations *)

Inductive outcome (A : Type) :=
| Ok (a : A)
| Raise (e : exn)
| OutOfFuel.
Arguments Ok {A} a.
Arguments Raise {A} e.
Arguments OutOfFuel {A}.

Definition M (A : Type) := State -> outcome A * State.

Definition ret {A} (a : A) : M A := fun s => (Ok a, s).
Definition throw {A} (e : exn) : M A := fun s => (Raise e, s).
Definition outOfFuel {A} : M A := fun s => (OutOfFuel, s).

Definition bind {A B} (c : M A) (k : A -> M B) : M B :=
  fun s =>
    match c s with
    | (Ok a, s') => k a s'
    | (Raise e, s') => (Raise e, s')
    | (OutOfFuel, s') => (OutOfFuel, s')
    end.

(** [try { c } catch (e) { h e }] *)
Definition try_catch {A} (c : M A) (h : exn -> M A) : M A :=
  fun s =>
    match c s with
    | (Raise e, s') => h e s'
    | r => r
    end.

Declare Scope js_scope.
Delimit Scope js_scope with js.
Notation "x <- c ;; k" := (bind c (fun x => k))
  (at level 61, c at next level, right associativity) : js_scope.
Notation "c ;; k" := (bind c (fun _ => k))
  (at level 61, right associativity) : js_scope.
Open Scope js_scope.

(** [await] on the answer of a collaborator. *)
Definition await {A} (r : exn + A) : M A :=
  match r with
  | inl e => throw e
  | inr a => ret a
  end.

Definition observe (o : Obs) : M unit :=
  fun s => (Ok tt, mkState (lastFetchedBlock s) (lastProcessedBlock s)
                           (table s) (trace s ++ [o])).

Definition getState : M State := fun s => (Ok s, s).

(** JavaScript truthiness of an integer-valued number. *)
Definition truthy (n : Z) : bool := negb (n =? 0).

(** [Math.ceil(a / b)] for integers [a] and [b <> 0]. *)
Definition ceilDiv (a b : Z) : Z := - ((- a) / b).

Definition includes (names : list string) (x : string) : bool :=
  existsb (String.eqb x) names.

(** ** Block tracker and storage *)

(** Modelled from the spec: [BlockTracker] (block-tracker.ts is not among
    the sources).  [setLastFetchedBlock] overwrites the cursor. *)
Definition setLastFetchedBlock (n : Z) (h : string) : M unit :=
  fun s => (Ok tt, mkState (Some (n, h)) (lastProcessedBlock s)
                           (table s) (trace s)).

(** Modelled from the spec: [BlockTracker.setLastProcessedBlockIfHigher]
    updates only when the new number strictly exceeds the stored one or
    when none is stored. *)
Definition setLastProcessedBlockIfHigher (n : Z) (h : string) : M unit :=
  fun s =>
    let keep := match lastProcessedBlock s with
                | Some (m, _) => n <=? m
                | None => false
                end in
    (Ok tt, mkState (lastFetchedBlock s)
                    (if keep then lastProcessedBlock s else Some (n, h))
                    (table s) (trace s)).

(** Modelled from the spec: [Event.bulkCreate] (event.model.ts is not among
    the sources) inserts all the rows or fails without inserting any. *)
Definition bulkCreate (w : World) (rows : list EventInterface) : M unit :=
  fun s =>
    match insertFault w (table s) rows with
    | Some e => (Raise e, s)
    | None => (Ok tt, mkState (lastFetchedBlock s) (lastProcessedBlock s)
                              (table s ++ rows) (trace s))
    end.

(** The rows of the table that do not belong to the contract at [addr]. *)
Definition rowsOfOthers (addr : string) (tbl : list EventInterface) : list EventInterface :=
  filter (fun r => negb (String.eqb (row_contractAddress r) addr)) tbl.

(** Modelled from the spec: [Event.destroy({ where: { contractAddress } })]
    deletes every row of that contract, or fails and deletes none. *)
Definition destroy (w : World) (addr : string) : M unit :=
  fun s =>
    match destroyFault w (table s) addr with
    | Some e => (Raise e, s)
    | None => (Ok tt, mkState (lastFetchedBlock s) (lastProcessedBlock s)
                              (rowsOfOthers addr (table s)) (trace s))
    end.

Definition sameKey (r1 r2 : EventInterface) : bool :=
  String.eqb (row_contractAddress r1) (row_contractAddress r2)
  && String.eqb (row_transactionHash r1) (row_transactionHash r2)
  && (row_logIndex r1 =? row_logIndex r2).

Fixpoint hasDuplicate (rows : list EventInterface) : bool :=
  match rows with
  | [] => false
  | r :: rest => existsb (sameKey r) rest || hasDuplicate rest
  end.

(** Modelled from the spec: the unique key of the buffer table is
    (contractAddress, transactionHash, logIndex); an insert that would
    break it is refused with a [SequelizeUniqueConstraintError]. *)
Definition uniqueKeyFault (tbl rows : list EventInterface) : option exn :=
  if hasDuplicate (tbl ++ rows)
  then Some (Foreign "SequelizeUniqueConstraintError")
  else None.

(** Modelled from the spec: [ModelConfirmator.checkDroppedTransactions]
    (confirmator.ts is not among the sources) reads the buffered rows of
    the contract and emits [invalidConfirmation] for each of them whose
    (transactionHash, logIndex) is not among the refetched events; when
    it fails, it does so before it emits. *)
Definition isDropped (newEvents : list EventData) (r : EventInterface) : bool :=
  negb (existsb (fun e => String.eqb (transactionHash e) (row_transactionHash r)
                          && (logIndex e =? row_logIndex r)) newEvents).

Definition checkDroppedTransactions (w : World) (c : ModelConfirmator)
    (newEvents : list EventData) : M unit :=
  fun s =>
    match confirmatorFault w (table s) newEvents with
    | Some e => (Raise e, s)
    | None =>
        let mine := filter (fun r => String.eqb (row_contractAddress r)
                                                (confirmator_address c))
                           (table s) in
        (Ok tt, mkState (lastFetchedBlock s) (lastProcessedBlock s) (table s)
                        (trace s ++ map EmitInvalidConfirmation
                                        (filter (isDropped newEvents) mine)))
    end.

(** ** The constructor *)

(** Modelled from the spec: [hashTopics] (utils.ts is not among the
    sources) hashes each raw signature and keeps an absent list absent. *)
Definition hashTopics (sha3 : string -> string)
    (tps : option (list Topic)) : option (list Topic) :=
  match tps with
  | None => None
  | Some l => Some (map (fun t => match t with
                                  | One x => One (sha3 x)
                                  | AnyOf xs => AnyOf (map sha3 xs)
                                  end) l)
  end.

(** [o?.field ?? d] *)
Definition orDefault {A B} (o : option A) (field : A -> option B) (d : B) : B :=
  match o with
  | Some r => match field r with Some x => x | None => d end
  | None => d
  end.

Definition optField {A B} (o : option A) (field : A -> option B) : option B :=
  match o with
  | Some r => field r
  | None => None
  end.

(** [BaseEventsEmitter.constructor], through [PollingEventsEmitter].  An
    array is truthy even when empty, so [!this.topics && !this.eventNames]
    asks whether both are [undefined]. *)
Definition BaseEventsEmitter_constructor (sha3 : string -> string)
    (address : string) (options : option EventsEmitterOptions) : exn + Emitter :=
  let eventNames := optField options opt_events in
  let startingBlock := orDefault options opt_startingBlock (Tag "genesis") in
  let confirmations := orDefault options opt_confirmations 0 in
  let topics := hashTopics sha3 (optField options opt_topics) in
  let batchSize := orDefault options opt_batchSize 120 in
  let serialListeners := orDefault options opt_serialListeners false in
  let serialProcessing := orDefault options opt_serialProcessing false in
  match topics, eventNames with
  | None, None => inl (JsError "You have to specify options.topics or options.events!")
  | _, _ =>
      let confirmator :=
        if 0 <? confirmations
        then Some (match optField options opt_confirmator with
                   | Some c => c
                   | None => mkConfirmator address
                   end)
        else None in
      inr (mkEmitter startingBlock eventNames confirmations topics batchSize
                     confirmator address serialListeners serialProcessing)
  end.

(** ** The methods *)

Section Methods.

Variable this : Emitter.
Variable w : World.

Definition serializeEvent (data : EventData) : EventInterface :=
  mkRow (blockNumber data) (transactionHash data) (logIndex data)
        (contract_address this) (event data) (confirmations this) data.

(** [emitEvents]: with or without [serialProcessing] the loop emits each
    event and then moves the last-processed cursor. *)
Fixpoint emitEvents (events : list EventData) : M unit :=
  match events with
  | [] => ret tt
  | data :: rest =>
      observe (EmitNewEvent data) ;;
      setLastProcessedBlockIfHigher (blockNumber data) (blockHash data) ;;
      emitEvents rest
  end.

(** [currentBlockNumber || await this.eth.getBlockNumber()] *)
Definition currentBlockNumberOr (currentBlockNumber : option Z) : M Z :=
  match currentBlockNumber with
  | Some n => if truthy n then ret n else await (getBlockNumber w)
  | None => await (getBlockNumber w)
  end.

Definition filterByNames (events : list EventData) : list EventData :=
  match eventNames this with
  | Some names => filter (fun data => includes names (event data)) events
  | None => events
  end.

(** [processEvents], called with an array. *)
Definition processEvents (events : list EventData)
    (currentBlockNumber : option Z) : M unit :=
  n <- currentBlockNumberOr currentBlockNumber ;;
  let events := filterByNames events in
  if (List.length events =? 0)%nat then ret tt
  else if confirmations this =? 0 then emitEvents events
  else
    let thresholdBlock := n - confirmations this in
    let eventsToBeConfirmed :=
      filter (fun e => thresholdBlock <? blockNumber e) events in
    try_catch (bulkCreate w (map serializeEvent eventsToBeConfirmed))
      (fun e =>
         if String.eqb (exn_name e) "SequelizeUniqueConstraintError"
         then throw (JsError "Duplicated events!")
         else throw e) ;;
    let eventsToBeEmitted :=
      filter (fun e => blockNumber e <=? thresholdBlock) events in
    emitEvents eventsToBeEmitted.

(** [toBlock === fromBlock ? 1 : Math.ceil((toBlock - fromBlock) / (this.batchSize - 1))]
    for [fromBlock < toBlock]: dividing a positive number by zero gives
    [Infinity]. *)
Definition countOfBatches (fromBlock toBlock : Z) : Count :=
  if toBlock =? fromBlock then Finite 1
  else if batchSize this - 1 =? 0 then Infinity
  else Finite (ceilDiv (toBlock - fromBlock) (batchSize this - 1)).

(** [batch < countOfBatches] *)
Definition ltCount (batch : Z) (c : Count) : bool :=
  match c with
  | Finite n => batch <? n
  | Infinity => true
  end.

Definition contract_getPastEvents (fromBlock : BlockId) (toBlock : Z)
    (tps : option (list Topic)) : M (list EventData) :=
  observe (CallGetPastEvents fromBlock toBlock tps) ;;
  await (getPastEvents w fromBlock toBlock tps).

(** [batchFromBlock] and [batchToBlock] of iteration [batch]. *)
Definition batchRange (fromBlock toBlock batch : Z) : Z * Z :=
  let batchFromBlock :=
    if batch =? 0 then fromBlock else fromBlock + batch * batchSize this in
  (batchFromBlock, Z.min (batchFromBlock + batchSize this - 1) toBlock).

(** The [for] loop of [batchFetchAndProcessEvents], from iteration [batch]
    on; [fuel] bounds the number of iterations that are run. *)
Fixpoint batchLoop (fuel : nat) (fromBlock toBlock : Z) (currentBlock : BlockHeader)
    (count : Count) (batch : Z) : M unit :=
  if ltCount batch count then
    match fuel with
    | O => outOfFuel
    | S fuel' =>
        let batchFromBlock := fst (batchRange fromBlock toBlock batch) in
        let batchToBlock := snd (batchRange fromBlock toBlock batch) in
        batchToBlockHeader <- await (getBlock w batchToBlock) ;;
        events <- contract_getPastEvents (Num batchFromBlock) batchToBlock (topics this) ;;
        observe (EmitProgress (mkProgress (batch + 1) count batchFromBlock batchToBlock)) ;;
        processEvents events (Some (number currentBlock)) ;;
        setLastFetchedBlock (number batchToBlockHeader) (hash batchToBlockHeader) ;;
        batchLoop fuel' fromBlock toBlock currentBlock count (batch + 1)
    end
  else ret tt.

Definition batchFetchAndProcessEvents (fuel : nat) (fromBlock toBlock : BlockId)
    (currentBlock : BlockHeader) : M unit :=
  match fromBlock, toBlock with
  | Num f, Num t =>
      if t <? f then throw (JsError "fromBlock has to be smaller then toBlock!")
      else batchLoop fuel f t currentBlock (countOfBatches f t) 0
  | _, _ => throw (JsTypeError "fromBlock and toBlock has to be numbers!")
  end.

(** [processPastEvents]: only ['genesis'] is resolved for [from], only
    ['latest'] for [to]. *)
Definition processPastEvents (fuel : nat) (from to : BlockId) : M unit :=
  currentBlock <- await (getBlockLatest w) ;;
  let from := match from with
              | Tag s => if String.eqb s "genesis" then Num 0 else from
              | Num _ => from
              end in
  let to := match to with
            | Tag s => if String.eqb s "latest" then Num (number currentBlock) else to
            | Num _ => to
            end in
  batchFetchAndProcessEvents fuel from to currentBlock.

Definition init (fuel : nat) : M unit :=
  s <- getState ;;
  match lastFetchedBlock s with
  | None => processPastEvents fuel (startingBlock this) (Tag "latest")
  | Some _ => ret tt
  end ;;
  observe EmitInitFinished.

(** [isReorg]: [!lastFetchedBlockNumber] and [if (lastProcessedBlockNumber)]
    are truthiness tests on a number that may be [undefined]. *)
Definition isReorg : M bool :=
  s <- getState ;;
  match lastFetchedBlock s with
  | None => ret false
  | Some (lastFetchedBlockNumber, lastFetchedBlockHash) =>
      if negb (truthy lastFetchedBlockNumber) then ret false
      else
        actualLastFetchedBlock <- await (getBlock w lastFetchedBlockNumber) ;;
        if String.eqb (hash actualLastFetchedBlock) lastFetchedBlockHash then ret false
        else
          match lastProcessedBlock s with
          | None => ret tt
          | Some (lastProcessedBlockNumber, lastProcessedBlockHash) =>
              if truthy lastProcessedBlockNumber then
                actualLastProcessedBlock <- await (getBlock w lastProcessedBlockNumber) ;;
                if negb (String.eqb (hash actualLastProcessedBlock) lastProcessedBlockHash)
                then observe (EmitReorgOutOfRange lastProcessedBlockNumber)
                else ret tt
              else ret tt
          end ;;
          observe EmitReorg ;;
          ret true
  end.

(** [(lastProcessedBlockNumber ? lastProcessedBlockNumber + 1 : false) || this.startingBlock] *)
Definition reorgFromBlock (s : State) : BlockId :=
  match lastProcessedBlock s with
  | Some (n, _) =>
      if truthy n && truthy (n + 1) then Num (n + 1) else startingBlock this
  | None => startingBlock this
  end.

(** [handleReorg]; [this.confirmator!.checkDroppedTransactions] is a
    [TypeError] when no confirmator was built. *)
Definition handleReorg (currentBlock : BlockHeader) : M unit :=
  s <- getState ;;
  newEvents <- contract_getPastEvents (reorgFromBlock s) (number currentBlock) None ;;
  match confirmator this with
  | Some c => checkDroppedTransactions w c newEvents
  | None => throw (JsTypeError "Cannot read property 'checkDroppedTransactions' of undefined")
  end ;;
  destroy w (contract_address this) ;;
  processEvents newEvents (Some (number currentBlock)) ;;
  setLastFetchedBlock (number currentBlock) (hash currentBlock).

(** How the [try] block of [poll] is left without an exception. *)
Inductive PollExit :=
| Done
| ReturnHandleReorg.

(** The [try] block of [poll].  With no last-fetched block,
    [lastFetchedBlockNumber + 1] is [NaN]: it passes the [typeof] test,
    [toBlock < NaN] and [toBlock === NaN] are false, the count of batches
    is [NaN] and [0 < NaN] is false, so no batch is run. *)
Definition pollTry (fuel : nat) (currentBlock : BlockHeader) : M PollExit :=
  reorg <- (if truthy (confirmations this) then isReorg else ret false) ;;
  if (reorg : bool) then ret ReturnHandleReorg
  else
    s <- getState ;;
    match lastFetchedBlock s with
    | None => ret Done
    | Some (lastFetchedBlockNumber, _) =>
        if lastFetchedBlockNumber =? number currentBlock then ret Done
        else
          batchFetchAndProcessEvents fuel (Num (lastFetchedBlockNumber + 1))
            (Num (number currentBlock)) currentBlock ;;
          ret Done
    end.

(** [poll].  [return this.handleReorg(currentBlock)] hands the promise of
    [handleReorg] over without awaiting it: the [catch] of [poll] does not
    see its rejection, which becomes the rejection of [poll]. *)
Definition poll (fuel : nat) (currentBlock : BlockHeader) : M unit :=
  exit <- try_catch (pollTry fuel currentBlock)
            (fun e => observe (LogError e) ;; ret Done) ;;
  match exit with
  | Done => ret tt
  | ReturnHandleReorg => handleReorg currentBlock
  end.

End Methods.

(** ** Concrete emitters, worlds and states used in the examples *)

Definition header (n : Z) : BlockHeader := mkHeader n "0xh".

Definition emptyState : State := mkState None None [] [].

(** A chain with head [head] on which every request succeeds and the
    contract has no logs. *)
Definition quietWorld (head : Z) : World :=
  mkWorld (inr head) (inr (header head)) (fun n => inr (header n))
          (fun _ _ _ => inr []) uniqueKeyFault (fun _ _ => None) (fun _ _ => None).

(** The same chain with the logs [logs] returned for every range. *)
Definition worldWithLogs (head : Z) (logs : list EventData) : World :=
  mkWorld (inr head) (inr (header head)) (fun n => inr (header n))
          (fun _ _ _ => inr logs) uniqueKeyFault (fun _ _ => None) (fun _ _ => None).

(** An emitter listening on the event name Transfer. *)
Definition transferEmitter (batch conf : Z) (c : option ModelConfirmator) : Emitter :=
  mkEmitter (Tag "genesis") (Some ["Transfer"]) conf None batch c "0xC" false false.

Definition transferAt (n : Z) (tx : string) : EventData :=
  mkEvent "Transfer" n "0xh" tx 0.

Definition approvalAt (n : Z) (tx : string) : EventData :=
  mkEvent "Approval" n "0xh" tx 0.

(** The ranges of the batches reported on the progress channel. *)
Definition progressRanges (tr : list Obs) : list (Z * Z) :=
  flat_map (fun o => match o with
                     | EmitProgress p => [(stepFromBlock p, stepToBlock p)]
                     | _ => []
                     end) tr.

Definition newEvents (tr : list Obs) : list EventData :=
  flat_map (fun o => match o with
                     | EmitNewEvent e => [e]
                     | _ => []
                     end) tr.

(** A chain with head [head] whose node refuses every log request. *)
Definition failingLogsWorld (head : Z) : World :=
  mkWorld (inr head) (inr (header head)) (fun n => inr (header n))
          (fun _ _ _ => inl (Foreign "RpcError")) uniqueKeyFault
          (fun _ _ => None) (fun _ _ => None).

(** An emitter with a server-side topic filter and a list of event names. *)
Definition topicsAndNamesEmitter : Emitter :=
  mkEmitter (Tag "genesis") (Some ["Transfer"]) 0
            (Some [One "0xApprovalTopic"]) 120 None "0xC" false false.

Definition namesOnly (names : list string) : EventsEmitterOptions :=
  mkOptions None (Some names) None None None None None None.

(** An emitter on Transfer that starts at [start]. *)
Definition emitterStartingAt (start : BlockId) (batch : Z) : Emitter :=
  mkEmitter start (Some ["Transfer"]) 0 None batch None "0xC" false false.

Definition fromBeyondTo : exn := JsError "fromBlock has to be smaller then toBlock!".

Definition noConfirmator : exn :=
  JsTypeError "Cannot read property 'checkDroppedTransactions' of undefined".

(** [c] returns normally from every state. *)
Definition succeeds {A} (c : M A) : Prop :=
  forall s, exists a s', c s = (Ok a, s').

(** The node answers every request. *)
Definition answers (w : World) : Prop :=
  (exists n, getBlockNumber w = inr n)
  /\ (forall n, exists h, getBlock w n = inr h)
  /\ (forall f t tps, exists l, getPastEvents w f t tps = inr l).

(** No insert is attempted, or the storage accepts every insert. *)
Definition insertsAccepted (this : Emitter) (w : World) : Prop :=
  confirmations this = 0 \/ forall tbl rows, insertFault w tbl rows = None.

Definition notNumbers : exn := JsTypeError "fromBlock and toBlock has to be numbers!".

(** Where [handleReorg] is described to start the refetch. *)
Definition afterLastProcessed (this : Emitter) (s : State) : BlockId :=
  match lastProcessedBlock s with
  | Some (n, _) => Num (n + 1)
  | None => startingBlock this
  end.

(** A reorg seen at head 10: two confirmations, the Transfer logs of
    blocks 3 and 10 refetched, block 2 processed last and one row still
    buffered for a transaction that is gone. *)
Definition reorgEmitter : Emitter :=
  transferEmitter 120 2 (Some (mkConfirmator "0xC")).

Definition reorgWorld : World :=
  worldWithLogs 10 [transferAt 3 "0xa"; transferAt 10 "0xb"].

Definition reorgState : State :=
  mkState (Some (5, "0xold")) (Some (2, "0xh"))
          [serializeEvent reorgEmitter (transferAt 5 "0xgone")] [].

(** What [start] does with [init] (lines 85-87):
    [if (!this.isInitialized) this.init().catch(error => this.emit('error', error))].
    [init] sets [isInitialized] after the catch-up and before it emits
    initFinished, so the flag is set exactly when [init] returns.  The
    result carries the flag after the task. *)
Definition start_init (this : Emitter) (w : World) (fuel : nat)
    (isInitialized : bool) (s : State) : outcome unit * State * bool :=
  if isInitialized then (Ok tt, s, true)
  else
    match init this w fuel s with
    | (Ok _, s') => (Ok tt, s', true)
    | (Raise e, s') => (observe (EmitError e) s', false)
    | (OutOfFuel, s') => (OutOfFuel, s', false)
    end.

(** The node numbers the headers it returns as they were asked for. *)
Definition numbered (w : World) : Prop :=
  forall n hdr, getBlock w n = inr hdr -> number hdr = n.

(** An emitter built by the constructor from [names] and [conf]
    confirmations. *)
Definition built (names : list string) (conf : Z) : exn + Emitter :=
  BaseEventsEmitter_constructor (fun x => x) "0xC"
    (Some (mkOptions None (Some names) None (Some conf) None None None None)).

(** The log requests recorded on a trace. *)
Definition requests (tr : list Obs) : list (BlockId * Z * option (list Topic)) :=
  flat_map (fun o => match o with
                     | CallGetPastEvents f t tps => [(f, t, tps)]
                     | _ => []
                     end) tr.



(** [c] only appends to the trace, and what it appends satisfies [P]. *)
Definition adds (P : Obs -> Prop) {A} (c : M A) : Prop :=
  forall s, exists d, trace (snd (c s)) = trace s ++ d /\ Forall P d.

Definition offErrorChannel (o : Obs) : Prop :=
  match o with
  | EmitError _ => False
  | _ => True
  end.

(** ** General facts about the monad and the simple methods *)

Lemma bind_ok {A B} (c : M A) (k : A -> M B) s a s' :
  c s = (Ok a, s') -> bind c k s = k a s'.
Proof. intros H. unfold bind. now rewrite H. Qed.

Lemma bind_raise {A B} (c : M A) (k : A -> M B) s e s' :
  c s = (Raise e, s') -> bind c k s = (Raise e, s').
Proof. intros H. unfold bind. now rewrite H. Qed.

Lemma bind_out_of_fuel {A B} (c : M A) (k : A -> M B) s s' :
  c s = (OutOfFuel, s') -> bind c k s = (OutOfFuel, s').
Proof. intros H. unfold bind. now rewrite H. Qed.

Lemma emitEvents_run events : forall s,
  exists lp,
    emitEvents events s
    = (Ok tt, mkState (lastFetchedBlock s) lp (table s)
                      (trace s ++ map EmitNewEvent events)).
Proof.
  induction events as [|data rest IH]; intros s; simpl.
  - exists (lastProcessedBlock s). unfold ret. rewrite app_nil_r. now destruct s.
  - unfold bind at 1. unfold observe at 1.
    unfold bind at 1. unfold setLastProcessedBlockIfHigher at 1. simpl.
    match goal with |- context [emitEvents rest ?s1] => destruct (IH s1) as [lp Hlp] end.
    exists lp. rewrite Hlp. simpl. now rewrite <- app_assoc.
Qed.

Lemma truthy_nonzero n : n <> 0 -> truthy n = true.
Proof. intros H. unfold truthy. now apply negb_true_iff, Z.eqb_neq. Qed.

Lemma length_eqb_nil {A} (l : list A) : (List.length l =? 0)%nat = true -> l = [].
Proof. destruct l; simpl; [reflexivity | discriminate]. Qed.

(** ** C1: the batches of a fetch cycle *)

(** C1 (fails on the code). Over the closed range [0, 9] with batches of
    5 blocks the claim asks for ceil(10 / 5) = 2 batches, [0, 4] and
    [5, 9]. The code runs Math.ceil(9 / 4) = 3 batches: after those two it
    requests the inverted range [10, 9] and reports it as step 3 of 3. *)
Theorem C1_extra_batch_past_the_range :
  exists s,
    batchFetchAndProcessEvents (transferEmitter 5 0 None) (quietWorld 9) 3
      (Num 0) (Num 9) (header 9) emptyState = (Ok tt, s)
    /\ progressRanges (trace s) = [(0, 4); (5, 9); (10, 9)]
    /\ countOfBatches (transferEmitter 5 0 None) 0 9 = Finite 3
    /\ ceilDiv (9 - 0 + 1) 5 = 2.
Proof. eexists. repeat split; vm_compute; reflexivity. Qed.

(** ** C2: classification by confirmation depth *)

(** C2 (fails on the code, two ways). First, the buffer insert comes
    before the emission and may be refused: with a row for (0xC, 0xb, 0)
    already buffered, the call for blocks 1 and 10 under head 10 and 2
    confirmations raises "Duplicated events!" and the confirmed event of
    block 1 is not emitted. Second, a current block number 0 is falsy and
    replaced by the block number of the chain: with the chain at 5 and 1
    confirmation the event of block 3 is emitted although 3 > 0 - 1. *)
Lemma C2_counterexample :
  let this := transferEmitter 120 2 None in
  let e1 := transferAt 1 "0xa" in
  let e2 := transferAt 10 "0xb" in
  let s := mkState None None [serializeEvent this e2] [] in
  (In e1 (filterByNames this [e1; e2])
   /\ blockNumber e1 <= 10 - confirmations this
   /\ exists s', processEvents this (quietWorld 10) [e1; e2] (Some 10) s
                 = (Raise (JsError "Duplicated events!"), s')
                 /\ ~ In (EmitNewEvent e1) (trace s'))
  /\
  (let this1 := transferEmitter 120 1 None in
   let e3 := transferAt 3 "0xc" in
   ~ blockNumber e3 <= 0 - confirmations this1
   /\ exists s', processEvents this1 (quietWorld 5) [e3] (Some 0) emptyState = (Ok tt, s')
                 /\ In (EmitNewEvent e3) (trace s') /\ table s' = []).
Proof.
  split.
  - split; [simpl; auto |]. split; [vm_compute; discriminate |].
    eexists. split; [vm_compute; reflexivity |]. simpl. tauto.
  - split; [vm_compute; intros H; now apply H |].
    eexists. split; [vm_compute; reflexivity |]. simpl. auto.
Qed.

(** C2 (amended). For a call of processEvents with a nonzero current block
    number n: with confirmations c > 0 and an insert that the storage
    accepts, the call returns, the events it emits on newEvent are exactly
    the events of the filtered input with blockNumber <= n - c, and the
    rows it adds to the buffer are exactly the rows of the filtered events
    with blockNumber > n - c, none of which is emitted; with c = 0 every
    filtered event is emitted and nothing is buffered; with c > 0, some
    event left by the filter and an insert that the storage refuses, the
    call raises with the state as it was, so before anything is emitted
    or buffered: the Error "Duplicated events!" when the failure is named
    SequelizeUniqueConstraintError, the failure of the storage itself
    otherwise. *)
Theorem C2_classification (this : Emitter) (w : World)
    (events : list EventData) (n : Z) (s : State) :
  n <> 0 ->
  let c := confirmations this in
  let input := filterByNames this events in
  (0 < c ->
   insertFault w (table s)
     (map (serializeEvent this) (filter (fun e => n - c <? blockNumber e) input)) = None ->
   exists s' emitted buffered,
     processEvents this w events (Some n) s = (Ok tt, s')
     /\ trace s' = trace s ++ map EmitNewEvent emitted
     /\ table s' = table s ++ map (serializeEvent this) buffered
     /\ (forall e, In e emitted <-> In e input /\ blockNumber e <= n - c)
     /\ (forall e, In e buffered <-> In e input /\ n - c < blockNumber e)
     /\ (forall e, In e buffered -> ~ In e emitted))
  /\
  (c = 0 ->
   exists s',
     processEvents this w events (Some n) s = (Ok tt, s')
     /\ trace s' = trace s ++ map EmitNewEvent input
     /\ table s' = table s)
  /\
  (forall e,
     0 < c ->
     input <> [] ->
     insertFault w (table s)
       (map (serializeEvent this) (filter (fun e => n - c <? blockNumber e) input))
     = Some e ->
     processEvents this w events (Some n) s
     = (Raise (if String.eqb (exn_name e) "SequelizeUniqueConstraintError"
               then JsError "Duplicated events!" else e), s)).
Proof.
  intros Hn c input.
  assert (Hcur : currentBlockNumberOr w (Some n) s = (Ok n, s)).
  { unfold currentBlockNumberOr. now rewrite (truthy_nonzero n Hn). }
  split; [| split].
  - intros Hc Hins.
    unfold processEvents. rewrite (bind_ok _ _ _ _ _ Hcur).
    fold input. fold c.
    destruct (List.length input =? 0)%nat eqn:Hlen.
    + apply length_eqb_nil in Hlen.
      exists s, [], []. rewrite Hlen. simpl. rewrite !app_nil_r.
      repeat split; try tauto; intros [[] _].
    + assert (Hc0 : (c =? 0) = false) by (apply Z.eqb_neq; lia).
      rewrite Hc0.
      set (toConfirm := filter (fun e => n - c <? blockNumber e) input) in *.
      set (toEmit := filter (fun e => blockNumber e <=? n - c) input).
      set (s1 := mkState (lastFetchedBlock s) (lastProcessedBlock s)
                         (table s ++ map (serializeEvent this) toConfirm) (trace s)).
      assert (Hbulk : try_catch (bulkCreate w (map (serializeEvent this) toConfirm))
                (fun e => if String.eqb (exn_name e) "SequelizeUniqueConstraintError"
                          then throw (JsError "Duplicated events!") else throw e) s
              = (Ok tt, s1)).
      { unfold try_catch, bulkCreate. now rewrite Hins. }
      rewrite (bind_ok _ _ _ _ _ Hbulk).
      destruct (emitEvents_run toEmit s1) as [lp Hemit].
      eexists. exists toEmit, toConfirm.
      split; [exact Hemit |]. simpl.
      split; [reflexivity |]. split; [reflexivity |].
      assert (HE : forall e, In e toEmit <-> In e input /\ blockNumber e <= n - c).
      { intros e. unfold toEmit. rewrite filter_In, Z.leb_le. tauto. }
      assert (HB : forall e, In e toConfirm <-> In e input /\ n - c < blockNumber e).
      { intros e. unfold toConfirm. rewrite filter_In, Z.ltb_lt. tauto. }
      split; [exact HE |]. split; [exact HB |].
      intros e Hb He. apply HB in Hb. apply HE in He. lia.
  - intros Hc.
    unfold processEvents. rewrite (bind_ok _ _ _ _ _ Hcur).
    fold input. fold c.
    destruct (List.length input =? 0)%nat eqn:Hlen.
    + apply length_eqb_nil in Hlen. exists s. rewrite Hlen. simpl.
      now rewrite app_nil_r.
    + rewrite Hc. simpl.
      destruct (emitEvents_run input s) as [lp Hemit].
      eexists. split; [exact Hemit |]. simpl. split; reflexivity.
  - intros e Hc Hne Hfault.
    unfold processEvents. rewrite (bind_ok _ _ _ _ _ Hcur).
    fold input. fold c.
    assert (Hlen : (List.length input =? 0)%nat = false).
    { revert Hne. generalize input. intros l. destruct l; [contradiction | reflexivity]. }
    rewrite Hlen.
    replace (c =? 0) with false by (symmetry; apply Z.eqb_neq; lia).
    unfold bind, try_catch, bulkCreate. rewrite Hfault.
    now destruct (String.eqb (exn_name e) _).
Qed.

(** An instance of C2: Transfer logs of blocks 3 and 9 under head 10 with
    2 confirmations and an empty buffer. *)
Lemma C2_classification_witness :
  exists s' emitted buffered,
    processEvents (transferEmitter 120 2 None) (quietWorld 10)
      [transferAt 3 "0xa"; transferAt 9 "0xb"] (Some 10) emptyState = (Ok tt, s')
    /\ trace s' = trace emptyState ++ map EmitNewEvent emitted
    /\ table s' = table emptyState
                  ++ map (serializeEvent (transferEmitter 120 2 None)) buffered
    /\ (forall e, In e emitted <->
          In e (filterByNames (transferEmitter 120 2 None)
                  [transferAt 3 "0xa"; transferAt 9 "0xb"])
          /\ blockNumber e <= 10 - 2)
    /\ (forall e, In e buffered <->
          In e (filterByNames (transferEmitter 120 2 None)
                  [transferAt 3 "0xa"; transferAt 9 "0xb"])
          /\ 10 - 2 < blockNumber e)
    /\ (forall e, In e buffered -> ~ In e emitted).
Proof.
  refine (proj1 (C2_classification (transferEmitter 120 2 None) (quietWorld 10)
                   [transferAt 3 "0xa"; transferAt 9 "0xb"] 10 emptyState _) _ _).
  - lia.
  - simpl. lia.
  - reflexivity.
Defined.

(** ** C3: reorg detection *)

(** X11. For a stored last-fetched block with a nonzero number whose
    header the chain returns: [isReorg] returns false and changes nothing
    when the hash is the stored one; otherwise it returns true and emits
    reorg, preceded by reorgOutOfRange with the last-processed number
    exactly when a last-processed block with a nonzero number is stored
    and the hash of its header has changed too. *)
Lemma isReorg_nonzero (w : World) (s : State) (n : Z) (h : string) (actual : BlockHeader) :
  lastFetchedBlock s = Some (n, h) -> n <> 0 ->
  getBlock w n = inr actual ->
  (hash actual = h -> isReorg w s = (Ok false, s))
  /\ (hash actual <> h ->
      (lastProcessedBlock s = None ->
       exists s', isReorg w s = (Ok true, s') /\ trace s' = trace s ++ [EmitReorg])
      /\ (forall pn ph actualP,
            lastProcessedBlock s = Some (pn, ph) -> pn <> 0 ->
            getBlock w pn = inr actualP ->
            exists s', isReorg w s = (Ok true, s')
              /\ trace s' = trace s
                   ++ (if String.eqb (hash actualP) ph then []
                       else [EmitReorgOutOfRange pn])
                   ++ [EmitReorg])).
Proof.
  intros Hlf Hn Hget.
  assert (Hstart : forall k : State -> M bool, bind getState k s = k s s) by reflexivity.
  split; [intros Heq | intros Hneq; split].
  - unfold isReorg. rewrite Hstart, Hlf, (truthy_nonzero n Hn). simpl.
    unfold bind, await. rewrite Hget. unfold ret.
    apply String.eqb_eq in Heq. now rewrite Heq.
  - intros Hlp. unfold isReorg. rewrite Hstart, Hlf, (truthy_nonzero n Hn). simpl.
    apply String.eqb_neq in Hneq.
    unfold bind at 1. unfold await at 1. rewrite Hget. unfold ret at 1.
    rewrite Hneq, Hlp. eexists. split; reflexivity.
  - intros pn ph actualP Hlp Hpn HgetP.
    unfold isReorg. rewrite Hstart, Hlf, (truthy_nonzero n Hn). simpl.
    apply String.eqb_neq in Hneq.
    unfold bind at 1. unfold await at 1. rewrite Hget. unfold ret at 1.
    rewrite Hneq, Hlp, (truthy_nonzero pn Hpn).
    unfold bind, await. rewrite HgetP. unfold ret.
    destruct (String.eqb (hash actualP) ph); simpl;
      (eexists; split; [reflexivity |]); simpl; [reflexivity |].
    now rewrite <- app_assoc.
Qed.

(** C3 (fails on the code). Block number 0 is falsy. With the last-fetched
    block (0, 0xold) stored and the chain holding a header with another
    hash at 0, isReorg returns false and emits nothing, where the claim
    asks for reorg and true. With the last-processed block (0, 0xold)
    stored and a changed header at 0, a detected reorg is not accompanied
    by reorgOutOfRange. *)
Theorem C3_block_zero_taken_for_absent :
  (let s := mkState (Some (0, "0xold")) None [] [] in
   getBlock (quietWorld 7) 0 = inr (header 0)
   /\ hash (header 0) <> "0xold"
   /\ isReorg (quietWorld 7) s = (Ok false, s))
  /\
  (let s := mkState (Some (5, "0xold")) (Some (0, "0xold")) [] [] in
   exists s', isReorg (quietWorld 7) s = (Ok true, s')
              /\ trace s' = [EmitReorg]).
Proof.
  split.
  - split; [reflexivity |]. split; [discriminate | reflexivity].
  - eexists. split; vm_compute; reflexivity.
Qed.

(** ** C5: the filter on event names *)

(** C5 (fails on the code). With both topics and events configured, the
    claim lets every fetched log through. The code filters by name
    whenever events is set: of an Approval log and a Transfer log returned
    under the topic filter, only the Transfer log is emitted. *)
Theorem C5_names_filter_applied_with_topics :
  topics topicsAndNamesEmitter <> None
  /\ filterByNames topicsAndNamesEmitter [approvalAt 1 "0xa"; transferAt 2 "0xb"]
     = [transferAt 2 "0xb"]
  /\ exists s',
       processEvents topicsAndNamesEmitter (quietWorld 9)
         [approvalAt 1 "0xa"; transferAt 2 "0xb"] (Some 9) emptyState = (Ok tt, s')
       /\ newEvents (trace s') = [transferAt 2 "0xb"].
Proof.
  split; [discriminate |]. split; [reflexivity |].
  eexists. split; vm_compute; reflexivity.
Qed.

(** ** C9: construction *)

(** C9 (fails on the code). The constructor validates neither batchSize
    nor startingBlock: with events given, a batch size of 0 and the
    starting block "nowhere" are accepted. *)
Lemma C9_counterexample :
  let options := mkOptions None (Some ["Transfer"]) (Some 0) None
                           (Some (Tag "nowhere")) None None None in
  exists this,
    BaseEventsEmitter_constructor (fun x => x) "0xC" (Some options) = inr this
    /\ batchSize this = 0
    /\ startingBlock this = Tag "nowhere".
Proof. eexists. repeat split. Qed.

(** C9 (amended). Construction fails exactly when both topics and events
    are missing, and then with the Error "You have to specify
    options.topics or options.events!"; batchSize and startingBlock are
    not examined. *)
Theorem C9_construction (sha3 : string -> string) (address : string)
    (options : option EventsEmitterOptions) :
  ((exists e, BaseEventsEmitter_constructor sha3 address options = inl e)
   <-> optField options opt_topics = None /\ optField options opt_events = None)
  /\ (forall e, BaseEventsEmitter_constructor sha3 address options = inl e ->
        e = JsError "You have to specify options.topics or options.events!")
  /\ (optField options opt_topics <> None \/ optField options opt_events <> None ->
      exists this, BaseEventsEmitter_constructor sha3 address options = inr this
        /\ batchSize this = orDefault options opt_batchSize 120
        /\ startingBlock this = orDefault options opt_startingBlock (Tag "genesis")).
Proof.
  unfold BaseEventsEmitter_constructor.
  destruct (optField options opt_topics) as [tps|] eqn:Ht;
    destruct (optField options opt_events) as [names|] eqn:He; simpl.
  1-3: split;
    [ split; [intros [e H]; discriminate H | intros [H1 H2]; discriminate] | ];
    (split; [intros e H; discriminate H | ]);
    intros _; eexists; split; [reflexivity | split; reflexivity].
  split; [split; [auto | intros _; eexists; reflexivity] |].
  split; [intros e H; now inversion H |].
  intros [H | H]; now elim H.
Qed.

(** An instance of C9: the options of the README, events only. *)
Lemma C9_construction_witness :
  exists this,
    BaseEventsEmitter_constructor (fun x => x) "0xC" (Some (namesOnly ["SomeEvent"]))
    = inr this
    /\ batchSize this = orDefault (Some (namesOnly ["SomeEvent"])) opt_batchSize 120
    /\ startingBlock this
       = orDefault (Some (namesOnly ["SomeEvent"])) opt_startingBlock (Tag "genesis").
Proof.
  refine (proj2 (proj2 (C9_construction (fun x => x) "0xC"
                          (Some (namesOnly ["SomeEvent"])))) _).
  right. discriminate.
Defined.

(** ** What the methods add to the trace *)

Create HintDb adds.

Section TraceGrowth.

Variable P : Obs -> Prop.
Hypothesis P_off_error : forall o, offErrorChannel o -> P o.

Lemma adds_ret {A} (a : A) : adds P (ret a).
Proof. intros s. exists []. simpl. now rewrite app_nil_r. Qed.

Lemma adds_throw {A} (e : exn) : adds P (@throw A e).
Proof. intros s. exists []. simpl. now rewrite app_nil_r. Qed.

Lemma adds_out_of_fuel {A} : adds P (@outOfFuel A).
Proof. intros s. exists []. simpl. now rewrite app_nil_r. Qed.

Lemma adds_bind {A B} (c : M A) (k : A -> M B) :
  adds P c -> (forall a, adds P (k a)) -> adds P (bind c k).
Proof.
  intros Hc Hk s. unfold bind.
  destruct (Hc s) as [d1 [E1 F1]].
  destruct (c s) as [[a|e|] s1]; simpl in E1.
  - destruct (Hk a s1) as [d2 [E2 F2]].
    exists (d1 ++ d2). rewrite E2, E1, app_assoc.
    split; [reflexivity | now apply Forall_app].
  - now exists d1.
  - now exists d1.
Qed.

Lemma adds_try_catch {A} (c : M A) (h : exn -> M A) :
  adds P c -> (forall e, adds P (h e)) -> adds P (try_catch c h).
Proof.
  intros Hc Hh s. unfold try_catch.
  destruct (Hc s) as [d1 [E1 F1]].
  destruct (c s) as [[a|e|] s1]; simpl in E1.
  - now exists d1.
  - destruct (Hh e s1) as [d2 [E2 F2]].
    exists (d1 ++ d2). rewrite E2, E1, app_assoc.
    split; [reflexivity | now apply Forall_app].
  - now exists d1.
Qed.

Lemma adds_observe (o : Obs) : offErrorChannel o -> adds P (observe o).
Proof. intros Ho s. exists [o]. simpl. split; [reflexivity | auto]. Qed.

Lemma adds_await {A} (r : exn + A) : adds P (await r).
Proof. destruct r; [apply adds_throw | apply adds_ret]. Qed.

Lemma adds_getState : adds P getState.
Proof. intros s. exists []. simpl. now rewrite app_nil_r. Qed.

Lemma adds_setLastFetchedBlock n h : adds P (setLastFetchedBlock n h).
Proof. intros s. exists []. simpl. now rewrite app_nil_r. Qed.

Lemma adds_setLastProcessedBlockIfHigher n h :
  adds P (setLastProcessedBlockIfHigher n h).
Proof. intros s. exists []. simpl. now rewrite app_nil_r. Qed.

Lemma adds_bulkCreate w rows : adds P (bulkCreate w rows).
Proof.
  intros s. exists []. unfold bulkCreate.
  destruct (insertFault w (table s) rows); simpl; now rewrite app_nil_r.
Qed.

Lemma adds_destroy w addr : adds P (destroy w addr).
Proof.
  intros s. exists []. unfold destroy.
  destruct (destroyFault w (table s) addr); simpl; now rewrite app_nil_r.
Qed.

Lemma adds_checkDroppedTransactions w c evs :
  adds P (checkDroppedTransactions w c evs).
Proof.
  intros s. unfold checkDroppedTransactions.
  destruct (confirmatorFault w (table s) evs).
  - exists []. simpl. now rewrite app_nil_r.
  - eexists. simpl. split; [reflexivity |].
    apply Forall_forall. intros o Ho. apply in_map_iff in Ho.
    destruct Ho as [r [<- _]]. now apply P_off_error.
Qed.

#[local] Hint Resolve adds_ret adds_throw adds_out_of_fuel adds_bind adds_try_catch
  adds_await adds_getState adds_setLastFetchedBlock
  adds_setLastProcessedBlockIfHigher adds_bulkCreate adds_destroy
  adds_checkDroppedTransactions : adds.

Ltac adds_step :=
  repeat first
    [ apply adds_bind; [ | intros ? ]
    | apply adds_observe; exact I
    | solve [ auto with adds ] ].

Variable this : Emitter.
Variable w : World.

Lemma adds_emitEvents events : adds P (emitEvents events).
Proof.
  induction events as [|data rest IH]; simpl; [apply adds_ret |].
  adds_step.
Qed.

Lemma adds_processEvents events cbn : adds P (processEvents this w events cbn).
Proof.
  unfold processEvents. apply adds_bind.
  - unfold currentBlockNumberOr.
    destruct cbn as [n|]; [destruct (truthy n) |]; auto with adds.
  - intros n.
    destruct (List.length (filterByNames this events) =? 0)%nat; [apply adds_ret |].
    destruct (confirmations this =? 0); [apply adds_emitEvents |].
    apply adds_bind; [| intros _; apply adds_emitEvents].
    apply adds_try_catch; [apply adds_bulkCreate |].
    intros e. destruct (String.eqb (exn_name e) _); apply adds_throw.
Qed.

Lemma adds_contract_getPastEvents f t tps : adds P (contract_getPastEvents w f t tps).
Proof. unfold contract_getPastEvents. adds_step. Qed.

Lemma adds_batchLoop fuel f t cur count : forall batch,
  adds P (batchLoop this w fuel f t cur count batch).
Proof.
  induction fuel as [|fuel IH]; intros batch; simpl.
  - destruct (ltCount batch count); [apply adds_out_of_fuel | apply adds_ret].
  - destruct (ltCount batch count); [| apply adds_ret].
    apply adds_bind; [apply adds_await | intros hdr].
    apply adds_bind; [apply adds_contract_getPastEvents | intros evs].
    apply adds_bind; [apply adds_observe; exact I | intros _].
    apply adds_bind; [apply adds_processEvents | intros _].
    apply adds_bind; [apply adds_setLastFetchedBlock | intros _].
    apply IH.
Qed.

Lemma adds_batchFetchAndProcessEvents fuel f t cur :
  adds P (batchFetchAndProcessEvents this w fuel f t cur).
Proof.
  unfold batchFetchAndProcessEvents.
  destruct f as [f|]; [destruct t as [t|] |]; try apply adds_throw.
  destruct (t <? f); [apply adds_throw | apply adds_batchLoop].
Qed.

Lemma adds_isReorg : adds P (isReorg w).
Proof.
  unfold isReorg. apply adds_bind; [apply adds_getState | intros s].
  destruct (lastFetchedBlock s) as [[n h]|]; [| apply adds_ret].
  destruct (negb (truthy n)); [apply adds_ret |].
  apply adds_bind; [apply adds_await | intros a].
  destruct (String.eqb (hash a) h); [apply adds_ret |].
  apply adds_bind.
  - destruct (lastProcessedBlock s) as [[pn ph]|]; [| apply adds_ret].
    destruct (truthy pn); [| apply adds_ret].
    apply adds_bind; [apply adds_await | intros ap].
    destruct (negb _); [apply adds_observe; exact I | apply adds_ret].
  - intros _. apply adds_bind; [apply adds_observe; exact I | intros _; apply adds_ret].
Qed.

Lemma adds_handleReorg cur : adds P (handleReorg this w cur).
Proof.
  unfold handleReorg. apply adds_bind; [apply adds_getState | intros s].
  apply adds_bind; [apply adds_contract_getPastEvents | intros evs].
  apply adds_bind.
  - destruct (confirmator this); [apply adds_checkDroppedTransactions | apply adds_throw].
  - intros _. apply adds_bind; [apply adds_destroy | intros _].
    apply adds_bind; [apply adds_processEvents | intros _].
    apply adds_setLastFetchedBlock.
Qed.

Lemma adds_pollTry fuel cur : adds P (pollTry this w fuel cur).
Proof.
  unfold pollTry. apply adds_bind.
  - destruct (truthy (confirmations this)); [apply adds_isReorg | apply adds_ret].
  - intros [|]; [apply adds_ret |].
    apply adds_bind; [apply adds_getState | intros s].
    destruct (lastFetchedBlock s) as [[n h]|]; [| apply adds_ret].
    destruct (n =? number cur); [apply adds_ret |].
    apply adds_bind; [apply adds_batchFetchAndProcessEvents | intros _; apply adds_ret].
Qed.

Lemma adds_poll fuel cur : adds P (poll this w fuel cur).
Proof.
  unfold poll. apply adds_bind.
  - apply adds_try_catch; [apply adds_pollTry |].
    intros e. apply adds_bind; [apply adds_observe; exact I | intros _; apply adds_ret].
  - intros [|]; [apply adds_ret | apply adds_handleReorg].
Qed.

End TraceGrowth.

(** ** C6: failures in a poll cycle *)

Lemma poll_of_pollTry_raise this w fuel cur s e s1 :
  pollTry this w fuel cur s = (Raise e, s1) ->
  poll this w fuel cur s
  = (Ok tt, mkState (lastFetchedBlock s1) (lastProcessedBlock s1) (table s1)
                    (trace s1 ++ [LogError e])).
Proof.
  intros H. unfold poll, bind, try_catch. rewrite H. reflexivity.
Qed.

Lemma poll_raise_inv this w fuel cur s e s' :
  poll this w fuel cur s = (Raise e, s') ->
  exists s1, pollTry this w fuel cur s = (Ok ReturnHandleReorg, s1)
             /\ handleReorg this w cur s1 = (Raise e, s').
Proof.
  unfold poll, bind, try_catch.
  destruct (pollTry this w fuel cur s) as [[[|]|e1|] s1]; simpl;
    try discriminate.
  intros H. now exists s1.
Qed.

Lemma pollTry_reorg_inv this w fuel cur s s1 :
  pollTry this w fuel cur s = (Ok ReturnHandleReorg, s1) ->
  truthy (confirmations this) = true /\ isReorg w s = (Ok true, s1).
Proof.
  unfold pollTry, bind.
  destruct (truthy (confirmations this)).
  - destruct (isReorg w s) as [[[|]|e|] s2]; try discriminate.
    + unfold ret. intros H. inversion H. now subst.
    + unfold getState.
      destruct (lastFetchedBlock s2) as [[n h]|]; try discriminate.
      destruct (n =? number cur); try discriminate.
      destruct (batchFetchAndProcessEvents _ _ _ _ _ _ _) as [[[]|?|] ?]; discriminate.
  - unfold ret at 1. unfold getState.
    destruct (lastFetchedBlock s) as [[n h]|]; try discriminate.
    destruct (n =? number cur); try discriminate.
    destruct (batchFetchAndProcessEvents _ _ _ _ _ _ _) as [[[]|?|] ?]; discriminate.
Qed.

(** C6 (fails on the code). A log request refused by the node during the
    forward fetch ends the cycle with the failure written to the log,
    and nothing is delivered on the error channel. In the reorg path the
    same failure is raised to the caller of poll. *)
Lemma C6_counterexample :
  (let s := mkState (Some (5, "0xh")) None [] [] in
   exists s',
     poll (transferEmitter 120 0 None) (failingLogsWorld 10) 3 (header 10) s = (Ok tt, s')
     /\ trace s' = [CallGetPastEvents (Num 6) 10 None; LogError (Foreign "RpcError")]
     /\ forall e, ~ In (EmitError e) (trace s'))
  /\
  (let s := mkState (Some (5, "0xold")) None [] [] in
   exists s',
     poll (transferEmitter 120 2 (Some (mkConfirmator "0xC")))
          (failingLogsWorld 10) 3 (header 10) s
     = (Raise (Foreign "RpcError"), s')).
Proof.
  split.
  - eexists. split; [vm_compute; reflexivity |]. split; [reflexivity |].
    intros e [H | [H | []]]; discriminate H.
  - eexists. vm_compute. reflexivity.
Qed.

(** C6 (amended). In a poll cycle, every failure raised while the reorg
    check or the forward fetch runs (LogSource error, storage error,
    duplicate insert) ends the cycle: poll writes it to the log and
    returns normally, leaving the cursors and the buffer as they were
    when it was raised. A poll cycle delivers nothing on the error
    channel. poll rejects only when handleReorg does. *)
Theorem C6_poll_failures (this : Emitter) (w : World) (fuel : nat)
    (cur : BlockHeader) (s : State) :
  (forall e s1, pollTry this w fuel cur s = (Raise e, s1) ->
     exists s', poll this w fuel cur s = (Ok tt, s')
       /\ trace s' = trace s1 ++ [LogError e]
       /\ lastFetchedBlock s' = lastFetchedBlock s1
       /\ lastProcessedBlock s' = lastProcessedBlock s1
       /\ table s' = table s1)
  /\ (exists d, trace (snd (poll this w fuel cur s)) = trace s ++ d
                /\ Forall offErrorChannel d)
  /\ (forall e s', poll this w fuel cur s = (Raise e, s') ->
        truthy (confirmations this) = true
        /\ exists s1, isReorg w s = (Ok true, s1)
                      /\ handleReorg this w cur s1 = (Raise e, s')).
Proof.
  split; [| split].
  - intros e s1 H. rewrite (poll_of_pollTry_raise _ _ _ _ _ _ _ H).
    eexists. split; [reflexivity |]. simpl. auto.
  - apply (adds_poll offErrorChannel (fun o H => H)).
  - intros e s' H. apply poll_raise_inv in H. destruct H as [s1 [H1 H2]].
    apply pollTry_reorg_inv in H1. destruct H1 as [Hc Hr].
    split; [exact Hc |]. now exists s1.
Qed.

(** An instance of C6: the node refuses the log request of a forward
    fetch from block 6 to block 10. *)
Lemma C6_poll_failures_witness :
  exists s',
    poll (transferEmitter 120 0 None) (failingLogsWorld 10) 3 (header 10)
         (mkState (Some (5, "0xh")) None [] []) = (Ok tt, s')
    /\ trace s' = [CallGetPastEvents (Num 6) 10 None] ++ [LogError (Foreign "RpcError")]
    /\ lastFetchedBlock s' = Some (5, "0xh")
    /\ lastProcessedBlock s' = None
    /\ table s' = [].
Proof.
  refine (proj1 (C6_poll_failures (transferEmitter 120 0 None) (failingLogsWorld 10) 3
                   (header 10) (mkState (Some (5, "0xh")) None [] []))
            (Foreign "RpcError")
            (mkState (Some (5, "0xh")) None [] [CallGetPastEvents (Num 6) 10 None]) _).
  vm_compute. reflexivity.
Defined.

(** ** C7: a range that ends before it starts *)

(** C7 (fails on the code). For from = 5 and to = 3 the fetch raises an
    Error; the initial catch-up of an emitter configured to start at
    block 5 on a chain whose head is 3 fails with it. *)
Lemma C7_counterexample :
  batchFetchAndProcessEvents (emitterStartingAt (Num 5) 120) (quietWorld 3) 1
    (Num 5) (Num 3) (header 3) emptyState
  = (Raise fromBeyondTo, emptyState)
  /\ init (emitterStartingAt (Num 5) 120) (quietWorld 3) 1 emptyState
     = (Raise fromBeyondTo, emptyState).
Proof. split; vm_compute; reflexivity. Qed.

(** C7 (amended). With from = lastFetched.number + 1 beyond
    to = currentBlock.number, batchFetchAndProcessEvents raises the Error
    "fromBlock has to be smaller then toBlock!" before any batch. A poll
    cycle that finds no reorg does not make that call when
    lastFetched.number equals currentBlock.number: it returns with
    nothing fetched, emitted or logged. When lastFetched.number is
    greater, poll catches the Error, logs it and returns normally. *)
Theorem C7_from_beyond_to (this : Emitter) (w : World) (fuel : nat)
    (cur : BlockHeader) (s : State) (n : Z) (h : string) :
  lastFetchedBlock s = Some (n, h) ->
  number cur < n + 1 ->
  confirmations this = 0 \/ isReorg w s = (Ok false, s) ->
  batchFetchAndProcessEvents this w fuel (Num (n + 1)) (Num (number cur)) cur s
  = (Raise fromBeyondTo, s)
  /\ (n = number cur -> poll this w fuel cur s = (Ok tt, s))
  /\ (number cur < n ->
      exists s', poll this w fuel cur s = (Ok tt, s')
        /\ trace s' = trace s ++ [LogError fromBeyondTo]
        /\ lastFetchedBlock s' = lastFetchedBlock s
        /\ lastProcessedBlock s' = lastProcessedBlock s
        /\ table s' = table s).
Proof.
  intros Hlf Hlt Hreorg.
  assert (Hfetch : batchFetchAndProcessEvents this w fuel (Num (n + 1))
                     (Num (number cur)) cur s = (Raise fromBeyondTo, s)).
  { unfold batchFetchAndProcessEvents.
    replace (number cur <? n + 1) with true by (symmetry; apply Z.ltb_lt; lia).
    reflexivity. }
  assert (Hcheck : (if truthy (confirmations this) then isReorg w else ret false) s
                   = (Ok false, s)).
  { destruct Hreorg as [Hc | Hr].
    - rewrite Hc. reflexivity.
    - destruct (truthy (confirmations this)); [exact Hr | reflexivity]. }
  split; [exact Hfetch |]. split.
  - intros Heq.
    assert (Htry : pollTry this w fuel cur s = (Ok Done, s)).
    { unfold pollTry. unfold bind at 1. rewrite Hcheck. unfold bind at 1.
      unfold getState. rewrite Hlf.
      replace (n =? number cur) with true by (symmetry; apply Z.eqb_eq; lia).
      reflexivity. }
    unfold poll, bind, try_catch. rewrite Htry. reflexivity.
  - intros Hgt.
    assert (Htry : pollTry this w fuel cur s = (Raise fromBeyondTo, s)).
    { unfold pollTry. unfold bind at 1. rewrite Hcheck. unfold bind at 1.
      unfold getState. rewrite Hlf.
      replace (n =? number cur) with false by (symmetry; apply Z.eqb_neq; lia).
      unfold bind. now rewrite Hfetch. }
    rewrite (poll_of_pollTry_raise _ _ _ _ _ _ _ Htry).
    eexists. split; [reflexivity |]. simpl. auto.
Qed.

(** An instance of C7: the new-block emitter reports block 7 again. *)
Lemma C7_from_beyond_to_witness :
  poll (transferEmitter 120 0 None) (quietWorld 7) 1 (header 7)
       (mkState (Some (7, "0xh")) None [] [])
  = (Ok tt, mkState (Some (7, "0xh")) None [] []).
Proof.
  refine (proj1 (proj2 (C7_from_beyond_to (transferEmitter 120 0 None) (quietWorld 7) 1
                          (header 7) (mkState (Some (7, "0xh")) None [] [])
                          7 "0xh" _ _ _)) _).
  - reflexivity.
  - simpl. lia.
  - left. reflexivity.
  - reflexivity.
Defined.

(** ** C10: the confirmator in the reorg path *)

(** An emitter built with a non-negative number of confirmations has a
    confirmator whenever [poll] asks for the reorg check. *)
Lemma confirmator_when_checked sha3 address options this :
  BaseEventsEmitter_constructor sha3 address options = inr this ->
  0 <= confirmations this ->
  truthy (confirmations this) = true ->
  exists c, confirmator this = Some c.
Proof.
  unfold BaseEventsEmitter_constructor.
  destruct (hashTopics sha3 (optField options opt_topics));
    destruct (optField options opt_events); try discriminate;
    intros H; inversion H; subst; clear H; simpl; intros Hge Ht;
    unfold truthy in Ht; apply negb_true_iff, Z.eqb_neq in Ht;
    (replace (0 <? orDefault options opt_confirmations 0) with true
       by (symmetry; apply Z.ltb_lt; lia));
    eexists; reflexivity.
Qed.

(** C10 (fails on the code). The constructor builds a confirmator when
    confirmations > 0, poll runs the reorg check when confirmations is
    truthy. With confirmations = -1 the emitter is built without a
    confirmator, poll detects the reorg of the last-fetched block 5 and
    handleReorg fails on the missing confirmator; the TypeError is raised
    to the caller of poll. *)
Theorem C10_negative_confirmations :
  let options := mkOptions None (Some ["Transfer"]) None (Some (-1)) None None None None in
  exists this,
    BaseEventsEmitter_constructor (fun x => x) "0xC" (Some options) = inr this
    /\ confirmations this = -1
    /\ confirmator this = None
    /\ exists s',
         poll this (quietWorld 10) 3 (header 10) (mkState (Some (5, "0xold")) None [] [])
         = (Raise noConfirmator, s')
         /\ trace s' = [EmitReorg; CallGetPastEvents (Tag "genesis") 10 None].
Proof.
  eexists. split; [reflexivity |]. split; [reflexivity |]. split; [reflexivity |].
  eexists. split; vm_compute; reflexivity.
Qed.

(** ** Runs in which every collaborator answers *)

Lemma succeeds_ret {A} (a : A) : succeeds (ret a).
Proof. intros s. now exists a, s. Qed.

Lemma succeeds_bind {A B} (c : M A) (k : A -> M B) :
  succeeds c -> (forall a, succeeds (k a)) -> succeeds (bind c k).
Proof.
  intros Hc Hk s. destruct (Hc s) as [a [s1 E]].
  rewrite (bind_ok _ _ _ _ _ E). apply Hk.
Qed.

Lemma succeeds_observe o : succeeds (observe o).
Proof. intros s. eexists. eexists. reflexivity. Qed.

Lemma succeeds_await {A} (r : exn + A) a : r = inr a -> succeeds (await r).
Proof. intros ->. apply succeeds_ret. Qed.

Lemma succeeds_emitEvents events : succeeds (emitEvents events).
Proof.
  intros s. destruct (emitEvents_run events s) as [lp H].
  exists tt. eexists. exact H.
Qed.

Section Completion.

Variable this : Emitter.
Variable w : World.
Hypothesis node_answers : answers w.
Hypothesis storage_accepts : insertsAccepted this w.

Lemma succeeds_processEvents events cbn : succeeds (processEvents this w events cbn).
Proof.
  destruct node_answers as [[head Hhead] _].
  unfold processEvents. apply succeeds_bind.
  - unfold currentBlockNumberOr.
    destruct cbn as [n|]; [destruct (truthy n) |];
      try apply succeeds_ret; now apply (succeeds_await _ head).
  - intros n.
    destruct (List.length (filterByNames this events) =? 0)%nat; [apply succeeds_ret |].
    destruct (confirmations this =? 0) eqn:Hc; [apply succeeds_emitEvents |].
    apply succeeds_bind; [| intros _; apply succeeds_emitEvents].
    intros s. destruct storage_accepts as [H0 | Hacc].
    + apply Z.eqb_neq in Hc. contradiction.
    + unfold try_catch, bulkCreate. rewrite Hacc. eexists. eexists. reflexivity.
Qed.

Lemma succeeds_contract_getPastEvents f t tps :
  succeeds (contract_getPastEvents w f t tps).
Proof.
  destruct node_answers as [_ [_ Hlogs]]. destruct (Hlogs f t tps) as [l Hl].
  unfold contract_getPastEvents. apply succeeds_bind; [apply succeeds_observe |].
  intros _. now apply (succeeds_await _ l).
Qed.

Lemma succeeds_batchLoop f t cur n : forall fuel batch,
  n - batch <= Z.of_nat fuel ->
  succeeds (batchLoop this w fuel f t cur (Finite n) batch).
Proof.
  destruct node_answers as [_ [Hblock _]].
  induction fuel as [|fuel IH]; intros batch Hfuel; simpl.
  - replace (batch <? n) with false by (symmetry; apply Z.ltb_ge; lia).
    apply succeeds_ret.
  - destruct (batch <? n); [| apply succeeds_ret].
    match goal with |- context [getBlock w ?b] => destruct (Hblock b) as [hdr Hhdr] end.
    apply succeeds_bind; [now apply (succeeds_await _ hdr) | intros hdr'].
    apply succeeds_bind; [apply succeeds_contract_getPastEvents | intros evs].
    apply succeeds_bind; [apply succeeds_observe | intros _].
    apply succeeds_bind; [apply succeeds_processEvents | intros _].
    apply succeeds_bind; [intros s; eexists; eexists; reflexivity | intros _].
    apply IH. lia.
Qed.

End Completion.

(** The first thing a batch loop that runs at least once does to the
    trace is to record its first log request. *)
Lemma batchLoop_first_call this w fuel f t cur count hdr s :
  ltCount 0 count = true ->
  getBlock w (Z.min (f + batchSize this - 1) t) = inr hdr ->
  exists rest,
    trace (snd (batchLoop this w (S fuel) f t cur count 0 s))
    = trace s ++ CallGetPastEvents (Num f) (Z.min (f + batchSize this - 1) t)
                                   (topics this) :: rest.
Proof.
  intros Hlt Hhdr. simpl. rewrite Hlt.
  unfold bind at 1. unfold await at 1. rewrite Hhdr. unfold ret at 1.
  unfold bind at 1. unfold contract_getPastEvents at 1.
  unfold bind at 1. unfold observe at 1.
  set (bt := Z.min (f + batchSize this - 1) t).
  set (s1 := mkState (lastFetchedBlock s) (lastProcessedBlock s) (table s)
                     (trace s ++ [CallGetPastEvents (Num f) bt (topics this)])).
  destruct (getPastEvents w (Num f) bt (topics this)) as [e | evs]; simpl.
  - exists []. reflexivity.
  - match goal with |- context [snd (?k s1)] =>
      assert (Hk : adds (fun _ => True) k)
    end.
    { apply adds_bind; [apply adds_observe; [auto | exact I] | intros _].
      apply adds_bind; [apply adds_processEvents; auto | intros _].
      apply adds_bind; [apply adds_setLastFetchedBlock | intros _].
      apply adds_batchLoop; auto. }
    destruct (Hk s1) as [d [Hd _]]. exists d. rewrite Hd. simpl.
    now rewrite <- app_assoc.
Qed.

Lemma ceilDiv_pos a b : 0 < a -> 0 < b -> 1 <= ceilDiv a b.
Proof.
  intros Ha Hb. unfold ceilDiv.
  assert (- a / b < 0) by (apply Z.div_lt_upper_bound; lia). lia.
Qed.

Lemma countOfBatches_finite this f t :
  f <= t -> 2 <= batchSize this ->
  exists n, countOfBatches this f t = Finite n /\ 1 <= n.
Proof.
  intros Hft Hb. unfold countOfBatches.
  destruct (t =? f) eqn:E; [exists 1; split; [reflexivity | lia] |].
  apply Z.eqb_neq in E.
  replace (batchSize this - 1 =? 0) with false by (symmetry; apply Z.eqb_neq; lia).
  eexists. split; [reflexivity |]. apply ceilDiv_pos; lia.
Qed.

(** ** C8: the initial catch-up *)

Lemma processPastEvents_resolved this w fuel s cur k :
  getBlockLatest w = inr cur ->
  (startingBlock this = Tag "genesis" /\ k = 0) \/ startingBlock this = Num k ->
  k <= number cur ->
  processPastEvents this w fuel (startingBlock this) (Tag "latest") s
  = batchLoop this w fuel k (number cur) cur (countOfBatches this k (number cur)) 0 s.
Proof.
  intros Hlatest Hstart Hk.
  unfold processPastEvents, bind, await. rewrite Hlatest. unfold ret.
  assert (Hlt : (number cur <? k) = false) by (apply Z.ltb_ge; lia).
  destruct Hstart as [[-> ->] | ->]; simpl; unfold batchFetchAndProcessEvents;
    now rewrite Hlt.
Qed.

Lemma init_without_cursor this w fuel s :
  lastFetchedBlock s = None ->
  init this w fuel s
  = bind (processPastEvents this w fuel (startingBlock this) (Tag "latest"))
         (fun _ => observe EmitInitFinished) s.
Proof.
  intros Hlf. unfold init. unfold bind at 1. unfold getState. now rewrite Hlf.
Qed.


(** ** C4: reorg remediation *)

Lemma currentBlockNumberOr_state w cbn s r s1 :
  currentBlockNumberOr w cbn s = (r, s1) -> s1 = s.
Proof.
  unfold currentBlockNumberOr.
  destruct cbn as [n|]; [destruct (truthy n) |];
    try (destruct (getBlockNumber w)); simpl;
    unfold ret, throw; intros H; now inversion H.
Qed.

(** A call of [processEvents] that returns has appended rows of filtered
    input events to the table and has left the last-fetched cursor. *)
Lemma processEvents_table this w events cbn s s' :
  processEvents this w events cbn s = (Ok tt, s') ->
  exists buffered,
    table s' = table s ++ map (serializeEvent this) buffered
    /\ incl buffered (filterByNames this events).
Proof.
  unfold processEvents. unfold bind at 1.
  destruct (currentBlockNumberOr w cbn s) as [[n|e|] s1] eqn:Hcur; try discriminate.
  apply currentBlockNumberOr_state in Hcur. subst s1.
  destruct (List.length (filterByNames this events) =? 0)%nat.
  - unfold ret. intros H. inversion H. subst. exists []. simpl.
    rewrite app_nil_r. split; [reflexivity | apply incl_nil_l].
  - destruct (confirmations this =? 0).
    + destruct (emitEvents_run (filterByNames this events) s) as [lp Hrun].
      rewrite Hrun. intros H. inversion H. subst. exists []. simpl.
      rewrite app_nil_r. split; [reflexivity | apply incl_nil_l].
    + unfold bind, try_catch, bulkCreate.
      match goal with |- context [insertFault w (table s) (map _ ?l)] =>
        set (toConfirm := l) end.
      destruct (insertFault w (table s) (map (serializeEvent this) toConfirm)) as [e|].
      * destruct (String.eqb (exn_name e) _); discriminate.
      * match goal with |- context [emitEvents ?l ?s1] =>
          destruct (emitEvents_run l s1) as [lp Hrun]; rewrite Hrun end.
        intros H. inversion H. subst. exists toConfirm. simpl.
        split; [reflexivity |]. intros e He. unfold toConfirm in He.
        now apply filter_In in He.
Qed.

Lemma rowsOfOthers_spec addr tbl r :
  In r (rowsOfOthers addr tbl) -> row_contractAddress r <> addr.
Proof.
  unfold rowsOfOthers. rewrite filter_In. intros [_ H].
  now apply negb_true_iff, String.eqb_neq in H.
Qed.

(** C4 (fails on the code). handleReorg clears the buffer of the contract
    and then classifies the refetched events, which buffers again those
    that are not yet confirmed: the Transfer log of block 10 refetched
    under head 10 with 2 confirmations is a buffered row of the contract
    after the call. Besides, a stored last-processed block number 0 is
    falsy: the refetch then starts at startingBlock, not at block 1. *)
Lemma C4_counterexample :
  let this := transferEmitter 120 2 (Some (mkConfirmator "0xC")) in
  let w := worldWithLogs 10 [transferAt 10 "0xa"] in
  (exists s',
     handleReorg this w (header 10) emptyState = (Ok tt, s')
     /\ table s' = [serializeEvent this (transferAt 10 "0xa")]
     /\ row_contractAddress (serializeEvent this (transferAt 10 "0xa"))
        = contract_address this)
  /\
  (exists s',
     handleReorg this w (header 10) (mkState (Some (5, "0xold")) (Some (0, "0xh")) [] [])
     = (Ok tt, s')
     /\ trace s' = [CallGetPastEvents (Tag "genesis") 10 None]).
Proof.
  split; eexists; (split; [vm_compute; reflexivity |]).
  - split; reflexivity.
  - reflexivity.
Qed.

(** C4 (amended). For a call handleReorg(currentBlock) that returns, with
    any stored last-processed block number positive: the first request
    refetches the logs from lastProcessed.number + 1 when a last-processed
    block is stored and from startingBlock otherwise, up to
    currentBlock.number; every row buffered before for the contract is
    removed; the refetched events are classified by processEvents on the
    cleared buffer, so the rows of the contract after the call are the
    rows that this classification buffers, all of them rows of refetched
    events; and lastFetched is (currentBlock.number, currentBlock.hash). *)
Theorem C4_handleReorg (this : Emitter) (w : World) (cur : BlockHeader)
    (s s' : State) :
  (forall n h, lastProcessedBlock s = Some (n, h) -> 0 < n) ->
  handleReorg this w cur s = (Ok tt, s') ->
  exists refetched rest buffered,
    getPastEvents w (afterLastProcessed this s) (number cur) None = inr refetched
    /\ trace s'
       = trace s ++ CallGetPastEvents (afterLastProcessed this s) (number cur) None :: rest
    /\ (exists s0 s1,
          table s0 = rowsOfOthers (contract_address this) (table s)
          /\ processEvents this w refetched (Some (number cur)) s0 = (Ok tt, s1)
          /\ table s' = table s1
          /\ trace s' = trace s1
          /\ lastProcessedBlock s' = lastProcessedBlock s1)
    /\ table s' = rowsOfOthers (contract_address this) (table s)
                  ++ map (serializeEvent this) buffered
    /\ incl buffered (filterByNames this refetched)
    /\ (forall r, In r (table s') ->
          row_contractAddress r = contract_address this ->
          exists e, In e buffered /\ r = serializeEvent this e)
    /\ lastFetchedBlock s' = Some (number cur, hash cur).
Proof.
  intros Hpos Hrun.
  assert (Hfrom : reorgFromBlock this s = afterLastProcessed this s).
  { unfold reorgFromBlock, afterLastProcessed.
    destruct (lastProcessedBlock s) as [[n h]|]; [| reflexivity].
    specialize (Hpos n h eq_refl).
    rewrite !truthy_nonzero by lia. reflexivity. }
  unfold handleReorg in Hrun. unfold bind at 1 in Hrun. unfold getState in Hrun.
  rewrite Hfrom in Hrun.
  set (from := afterLastProcessed this s) in *.
  unfold bind at 1 in Hrun. unfold contract_getPastEvents in Hrun.
  unfold bind at 1 in Hrun. unfold observe at 1 in Hrun.
  destruct (getPastEvents w from (number cur) None) as [e | refetched];
    [discriminate |].
  simpl in Hrun. unfold bind at 1 in Hrun.
  destruct (confirmator this) as [c|]; [| discriminate].
  unfold checkDroppedTransactions at 1 in Hrun. simpl in Hrun.
  destruct (confirmatorFault w (table s) refetched) as [e|]; [discriminate |].
  unfold bind at 1 in Hrun. unfold destroy at 1 in Hrun. simpl in Hrun.
  destruct (destroyFault w (table s) (contract_address this)) as [e|];
    [discriminate |].
  unfold bind at 1 in Hrun.
  match type of Hrun with context [processEvents _ _ _ _ ?st] =>
    set (s0 := st) in * end.
  destruct (processEvents this w refetched (Some (number cur)) s0)
    as [[[]|e|] s1] eqn:Hproc; try discriminate.
  unfold setLastFetchedBlock in Hrun. inversion Hrun. subst s'. clear Hrun.
  destruct (processEvents_table _ _ _ _ _ _ Hproc) as [buffered [Htbl Hincl]].
  destruct (adds_processEvents (fun _ => True) (fun _ _ => I) this w refetched
              (Some (number cur)) s0)
    as [d [Hd _]].
  rewrite Hproc in Hd. simpl in Hd.
  exists refetched. eexists. exists buffered.
  split; [reflexivity |]. simpl.
  split; [rewrite Hd; simpl; rewrite <- !app_assoc; reflexivity |].
  split; [exists s0, s1; auto |].
  split; [exact Htbl |]. split; [exact Hincl |]. split; [| reflexivity].
  intros r Hr Haddr. rewrite Htbl in Hr. apply in_app_or in Hr.
  destruct Hr as [Hr | Hr].
  - apply rowsOfOthers_spec in Hr. contradiction.
  - apply in_map_iff in Hr. destruct Hr as [e [He Hin]]. now exists e.
Qed.

(** An instance of C4. *)
Lemma C4_handleReorg_witness :
  let s' := snd (handleReorg reorgEmitter reorgWorld (header 10) reorgState) in
  exists refetched rest buffered,
    getPastEvents reorgWorld (afterLastProcessed reorgEmitter reorgState)
      (number (header 10)) None = inr refetched
    /\ trace s'
       = trace reorgState
         ++ CallGetPastEvents (afterLastProcessed reorgEmitter reorgState)
              (number (header 10)) None :: rest
    /\ (exists s0 s1,
          table s0 = rowsOfOthers (contract_address reorgEmitter) (table reorgState)
          /\ processEvents reorgEmitter reorgWorld refetched
               (Some (number (header 10))) s0 = (Ok tt, s1)
          /\ table s' = table s1
          /\ trace s' = trace s1
          /\ lastProcessedBlock s' = lastProcessedBlock s1)
    /\ table s' = rowsOfOthers (contract_address reorgEmitter) (table reorgState)
                  ++ map (serializeEvent reorgEmitter) buffered
    /\ incl buffered (filterByNames reorgEmitter refetched)
    /\ (forall r, In r (table s') ->
          row_contractAddress r = contract_address reorgEmitter ->
          exists e, In e buffered /\ r = serializeEvent reorgEmitter e)
    /\ lastFetchedBlock s' = Some (number (header 10), hash (header 10)).
Proof.
  intros s'.
  apply (C4_handleReorg reorgEmitter reorgWorld (header 10) reorgState s').
  - intros n h H. inversion H. lia.
  - vm_compute. reflexivity.
Defined.

(** ** More on the batches of C1 *)

Lemma batchRange_eq this f t i :
  batchRange this f t i
  = (f + i * batchSize this, Z.min (f + i * batchSize this + batchSize this - 1) t).
Proof.
  unfold batchRange. destruct (i =? 0) eqn:E; [| reflexivity].
  apply Z.eqb_eq in E. subst i. now rewrite Z.mul_0_l, Z.add_0_r.
Qed.

Lemma ceilDiv_upper a b : 0 < b -> a <= ceilDiv a b * b.
Proof.
  intros Hb. unfold ceilDiv.
  pose proof (Z.mul_div_le (- a) b Hb). lia.
Qed.

(** X4. With batches of at least 2 blocks, the batches that the loop runs
    leave no block of the range out and scan none twice. *)
Lemma every_block_in_one_batch this f t x :
  2 <= batchSize this -> f <= x <= t ->
  exists n i,
    countOfBatches this f t = Finite n
    /\ 0 <= i < n
    /\ fst (batchRange this f t i) <= x <= snd (batchRange this f t i)
    /\ forall j, 0 <= j < n ->
         fst (batchRange this f t j) <= x <= snd (batchRange this f t j) -> j = i.
Proof.
  intros Hb Hx.
  destruct (countOfBatches_finite this f t ltac:(lia) Hb) as [n [Hn Hn1]].
  exists n, ((x - f) / batchSize this). split; [exact Hn |].
  set (b := batchSize this) in *.
  assert (Hb0 : 0 < b) by lia.
  pose proof (Z.mul_div_le (x - f) b Hb0) as Hlo.
  pose proof (Z.mul_succ_div_gt (x - f) b Hb0) as Hhi.
  assert (Hi0 : 0 <= (x - f) / b) by (apply Z.div_pos; lia).
  set (i := (x - f) / b) in *.
  split; [split; [exact Hi0 |] |].
  - unfold countOfBatches in Hn. fold b in Hn.
    destruct (t =? f) eqn:E.
    + apply Z.eqb_eq in E. inversion Hn. subst n.
      assert (x - f = 0) by lia. nia.
    + replace (b - 1 =? 0) with false in Hn by (symmetry; apply Z.eqb_neq; lia).
      inversion Hn as [Hc].
      pose proof (ceilDiv_upper (t - f) (b - 1) ltac:(lia)) as Hup.
      rewrite Hc in Hup. nia.
  - rewrite !batchRange_eq. fold b. cbn [fst snd]. split; [lia |].
    intros j Hj. rewrite batchRange_eq. fold b. cbn [fst snd]. intros Hin.
    unfold i. apply Z.div_unique_pos with (r := x - f - b * j); lia.
Qed.

Section Divergence.

Variable this : Emitter.
Variable w : World.
Hypothesis node_answers : answers w.
Hypothesis storage_accepts : insertsAccepted this w.

(** When the count of batches is [Infinity] and nothing fails, no amount
    of fuel lets the loop return. *)
Lemma batchLoop_infinity f t cur : forall fuel batch s,
  fst (batchLoop this w fuel f t cur Infinity batch s) = OutOfFuel.
Proof.
  induction fuel as [|fuel IH]; intros batch s; simpl; [reflexivity |].
  pose proof node_answers as [_ [Hblock _]].
  match goal with |- context [getBlock w ?b] => destruct (Hblock b) as [hdr Hhdr] end.
  unfold bind at 1. unfold await at 1. rewrite Hhdr. unfold ret at 1.
  match goal with |- context [contract_getPastEvents w ?a ?b ?c] =>
    pose proof (succeeds_contract_getPastEvents w node_answers a b c s) as E1
  end.
  destruct E1 as [evs [s1 E1]].
  rewrite (bind_ok _ _ _ _ _ E1). cbv beta.
  unfold bind at 1. unfold observe at 1. cbv beta iota.
  match goal with |- fst (bind _ _ ?st) = _ =>
    pose proof (succeeds_processEvents this w node_answers storage_accepts evs
                  (Some (number cur)) st) as E2
  end.
  destruct E2 as [[] [s2 E2]].
  rewrite (bind_ok _ _ _ _ _ E2). cbv beta.
  unfold bind at 1. unfold setLastFetchedBlock at 1. cbv beta iota.
  apply IH.
Qed.

End Divergence.

(** With batches of one block and a range of two blocks the count of
    batches is [Infinity]: the fetch never returns. *)
Lemma batchSize_one_never_returns fuel :
  fst (batchFetchAndProcessEvents (transferEmitter 1 0 None) (quietWorld 1) fuel
         (Num 0) (Num 1) (header 1) emptyState) = OutOfFuel.
Proof.
  unfold batchFetchAndProcessEvents. simpl.
  change (countOfBatches (transferEmitter 1 0 None) 0 1) with Infinity.
  apply batchLoop_infinity.
  - split; [now exists 1 |]. split; [intros n; now exists (header n) |].
    intros f t tps. now exists [].
  - left. reflexivity.
Qed.

(** * Further properties of the emitter *)

(** ** processEvents *)

Lemma filter_none {A} (l : list A) : filter (fun _ => false) l = [].
Proof. induction l; auto. Qed.

Lemma filter_all {A} (l : list A) : filter (fun _ => true) l = l.
Proof. induction l as [|a l IH]; simpl; [reflexivity | now rewrite IH]. Qed.

Lemma processEvents_raise_state this w events cbn s e s' :
  processEvents this w events cbn s = (Raise e, s') -> s' = s.
Proof.
  unfold processEvents. unfold bind at 1.
  destruct (currentBlockNumberOr w cbn s) as [[n|e1|] s1] eqn:Hcur;
    pose proof (currentBlockNumberOr_state _ _ _ _ _ Hcur) as ->;
    try (intros H; now inversion H).
  destruct (List.length (filterByNames this events) =? 0)%nat; [discriminate |].
  destruct (confirmations this =? 0).
  - destruct (emitEvents_run (filterByNames this events) s) as [lp Hrun].
    rewrite Hrun. discriminate.
  - unfold bind, try_catch, bulkCreate.
    destruct (insertFault w (table s) _) as [e1|].
    + destruct (String.eqb (exn_name e1) _); unfold throw; intros H; now inversion H.
    + match goal with |- context [emitEvents ?l ?s1] =>
        destruct (emitEvents_run l s1) as [lp Hrun]; rewrite Hrun end.
      discriminate.
Qed.

(** X1. Whatever its outcome, processEvents leaves the last-fetched
    cursor alone, keeps every buffered row and only appends rows of its
    filtered input, and puts on the trace nothing but newEvent payloads
    of filtered input events, in their input order; when it raises, the
    state is as before the call; it always ends. *)
Theorem processEvents_frame (this : Emitter) (w : World)
    (events : list EventData) (cbn : option Z) (s s' : State) (r : outcome unit) :
  processEvents this w events cbn s = (r, s') ->
  r <> OutOfFuel
  /\ lastFetchedBlock s' = lastFetchedBlock s
  /\ (exists keepE keepR,
        trace s' = trace s
                   ++ map EmitNewEvent (filter keepE (filterByNames this events))
        /\ table s' = table s
                      ++ map (serializeEvent this)
                             (filter keepR (filterByNames this events)))
  /\ (forall e, r = Raise e -> s' = s).
Proof.
  pose proof (filter_none (filterByNames this events)) as Hfalse.
  pose proof (filter_all (filterByNames this events)) as Htrue.
  assert (Hsame : forall r0, r0 <> OutOfFuel ->
            (r, s') = (r0, s) ->
            r <> OutOfFuel
            /\ lastFetchedBlock s' = lastFetchedBlock s
            /\ (exists keepE keepR,
                  trace s' = trace s
                    ++ map EmitNewEvent (filter keepE (filterByNames this events))
                  /\ table s' = table s
                    ++ map (serializeEvent this)
                         (filter keepR (filterByNames this events)))
            /\ (forall e, r = Raise e -> s' = s)).
  { intros r0 Hr0 H. inversion H. subst.
    split; [exact Hr0 |]. split; [reflexivity |]. split; [| reflexivity].
    exists (fun _ => false), (fun _ => false). rewrite Hfalse. simpl.
    now rewrite !app_nil_r. }
  unfold processEvents. unfold bind at 1.
  destruct (currentBlockNumberOr w cbn s) as [[n|e1|] s1] eqn:Hcur;
    pose proof (currentBlockNumberOr_state _ _ _ _ _ Hcur) as ->.
  - destruct (List.length (filterByNames this events) =? 0)%nat.
    { unfold ret. intros H. symmetry in H. now apply (Hsame (Ok tt)). }
    destruct (confirmations this =? 0).
    { destruct (emitEvents_run (filterByNames this events) s) as [lp Hemit].
      rewrite Hemit. intros H. inversion H. subst. simpl.
      split; [discriminate |]. split; [reflexivity |]. split; [| discriminate].
      exists (fun _ => true), (fun _ => false). rewrite Htrue, Hfalse. simpl.
      now rewrite app_nil_r. }
    unfold bind, try_catch, bulkCreate.
    destruct (insertFault w (table s) _) as [e1|].
    + destruct (String.eqb (exn_name e1) _); unfold throw; intros H;
        symmetry in H;
        [ now apply (Hsame (Raise (JsError "Duplicated events!")))
        | now apply (Hsame (Raise e1)) ].
    + match goal with |- context [emitEvents ?l ?s1] =>
        destruct (emitEvents_run l s1) as [lp Hemit]; rewrite Hemit end.
      intros H. inversion H. subst. simpl.
      split; [discriminate |]. split; [reflexivity |]. split; [| discriminate].
      eexists. eexists. split; reflexivity.
  - intros H. symmetry in H. now apply (Hsame (Raise e1)).
  - exfalso. unfold currentBlockNumberOr in Hcur.
    destruct cbn as [n|]; [destruct (truthy n) |];
      try (destruct (getBlockNumber w)); discriminate Hcur.
Qed.

(** An instance of X1: a Transfer log to emit, an Approval log to drop
    and a Transfer log to buffer. *)
Lemma processEvents_frame_witness :
  let run := processEvents (transferEmitter 120 2 None) (quietWorld 10)
               [transferAt 3 "0xa"; approvalAt 4 "0xb"; transferAt 9 "0xc"]
               (Some 10) emptyState in
  fst run <> OutOfFuel
  /\ lastFetchedBlock (snd run) = lastFetchedBlock emptyState
  /\ (exists keepE keepR,
        trace (snd run)
        = trace emptyState
          ++ map EmitNewEvent
               (filter keepE
                  (filterByNames (transferEmitter 120 2 None)
                     [transferAt 3 "0xa"; approvalAt 4 "0xb"; transferAt 9 "0xc"]))
        /\ table (snd run)
           = table emptyState
             ++ map (serializeEvent (transferEmitter 120 2 None))
                  (filter keepR
                     (filterByNames (transferEmitter 120 2 None)
                        [transferAt 3 "0xa"; approvalAt 4 "0xb"; transferAt 9 "0xc"])))
  /\ (forall e, fst run = Raise e -> snd run = emptyState).
Proof.
  intros run.
  apply (processEvents_frame (transferEmitter 120 2 None) (quietWorld 10)
           [transferAt 3 "0xa"; approvalAt 4 "0xb"; transferAt 9 "0xc"]
           (Some 10) emptyState (snd run) (fst run)).
  apply surjective_pairing.
Defined.

(** X2. When the storage refuses the insert of the rows to buffer,
    processEvents raises before anything is emitted and leaves the state
    as it was: the Error "Duplicated events!" for a failure named
    SequelizeUniqueConstraintError, the failure of the storage itself
    otherwise. *)
Theorem processEvents_insert_refused (this : Emitter) (w : World)
    (events : list EventData) (n : Z) (s : State) (e : exn) :
  n <> 0 ->
  confirmations this <> 0 ->
  filterByNames this events <> [] ->
  insertFault w (table s)
    (map (serializeEvent this)
       (filter (fun ev => n - confirmations this <? blockNumber ev)
          (filterByNames this events))) = Some e ->
  processEvents this w events (Some n) s
  = (Raise (if String.eqb (exn_name e) "SequelizeUniqueConstraintError"
            then JsError "Duplicated events!" else e), s).
Proof.
  intros Hn Hc Hne Hfault.
  unfold processEvents, bind at 1, currentBlockNumberOr.
  rewrite (truthy_nonzero n Hn). unfold ret at 1.
  assert (Hlen : (List.length (filterByNames this events) =? 0)%nat = false)
    by (destruct (filterByNames this events); [contradiction | reflexivity]).
  rewrite Hlen. apply Z.eqb_neq in Hc. rewrite Hc.
  unfold bind, try_catch, bulkCreate. rewrite Hfault.
  now destruct (String.eqb (exn_name e) _).
Qed.

(** An instance of X2: the row of the Transfer log of block 10 is
    buffered already. *)
Lemma processEvents_insert_refused_witness :
  processEvents (transferEmitter 120 2 None) (quietWorld 10)
    [transferAt 1 "0xa"; transferAt 10 "0xb"] (Some 10)
    (mkState None None
       [serializeEvent (transferEmitter 120 2 None) (transferAt 10 "0xb")] [])
  = (Raise (if String.eqb (exn_name (Foreign "SequelizeUniqueConstraintError"))
                          "SequelizeUniqueConstraintError"
            then JsError "Duplicated events!"
            else Foreign "SequelizeUniqueConstraintError"),
     mkState None None
       [serializeEvent (transferEmitter 120 2 None) (transferAt 10 "0xb")] []).
Proof.
  apply (processEvents_insert_refused (transferEmitter 120 2 None) (quietWorld 10)
           [transferAt 1 "0xa"; transferAt 10 "0xb"] 10).
  - lia.
  - simpl. lia.
  - discriminate.
  - reflexivity.
Defined.

Lemma filterByNames_empty this events :
  eventNames this = Some [] -> filterByNames this events = [].
Proof.
  unfold filterByNames. intros ->. induction events; auto.
Qed.

(** X3. An empty events list is not a missing one: the constructor
    accepts it, and the emitter it builds drops every log in
    processEvents, whatever the topics and the confirmations are. *)
Theorem empty_events_list_drops_all (sha3 : string -> string) (address : string)
    (options : EventsEmitterOptions) (w : World)
    (events : list EventData) (n : Z) (s : State) :
  opt_events options = Some [] ->
  n <> 0 ->
  exists this,
    BaseEventsEmitter_constructor sha3 address (Some options) = inr this
    /\ processEvents this w events (Some n) s = (Ok tt, s).
Proof.
  intros Hev Hn. unfold BaseEventsEmitter_constructor. simpl. rewrite Hev.
  destruct (hashTopics sha3 (opt_topics options));
    (eexists; split; [reflexivity |]);
    unfold processEvents, bind at 1, currentBlockNumberOr;
    rewrite (truthy_nonzero n Hn); unfold ret at 1;
    now rewrite filterByNames_empty.
Qed.

(** An instance of X3. *)
Lemma empty_events_list_drops_all_witness :
  exists this,
    BaseEventsEmitter_constructor (fun x => x) "0xC" (Some (namesOnly [])) = inr this
    /\ processEvents this (quietWorld 10) [transferAt 3 "0xa"] (Some 10) emptyState
       = (Ok tt, emptyState).
Proof.
  apply (empty_events_list_drops_all (fun x => x) "0xC" (namesOnly []) (quietWorld 10)
           [transferAt 3 "0xa"] 10 emptyState).
  - reflexivity.
  - lia.
Defined.

(** ** batchFetchAndProcessEvents *)

(** An instance of X4: block 7 of the range [0, 9] fetched in batches of
    5 blocks. *)
Lemma every_block_in_one_batch_witness :
  exists n i,
    countOfBatches (transferEmitter 5 0 None) 0 9 = Finite n
    /\ 0 <= i < n
    /\ fst (batchRange (transferEmitter 5 0 None) 0 9 i) <= 7
       <= snd (batchRange (transferEmitter 5 0 None) 0 9 i)
    /\ forall j, 0 <= j < n ->
         fst (batchRange (transferEmitter 5 0 None) 0 9 j) <= 7
         <= snd (batchRange (transferEmitter 5 0 None) 0 9 j) -> j = i.
Proof.
  apply (every_block_in_one_batch (transferEmitter 5 0 None) 0 9 7).
  - simpl. lia.
  - lia.
Defined.

(** X5. With a batch size of 1 and a range of more than one block the
    count of batches is Infinity: as long as the node answers and the
    inserts are accepted, batchFetchAndProcessEvents does not return,
    however many iterations it is given. *)
Theorem batchSize_one_diverges (this : Emitter) (w : World) (f t : Z)
    (cur : BlockHeader) (fuel : nat) (s : State) :
  batchSize this = 1 ->
  f < t ->
  answers w ->
  insertsAccepted this w ->
  fst (batchFetchAndProcessEvents this w fuel (Num f) (Num t) cur s) = OutOfFuel.
Proof.
  intros Hb Hft Hw Hins. unfold batchFetchAndProcessEvents.
  replace (t <? f) with false by (symmetry; apply Z.ltb_ge; lia).
  unfold countOfBatches. rewrite Hb.
  replace (t =? f) with false by (symmetry; apply Z.eqb_neq; lia).
  simpl. now apply batchLoop_infinity.
Qed.

(** An instance of X5. *)
Lemma batchSize_one_diverges_witness :
  fst (batchFetchAndProcessEvents (transferEmitter 1 0 None) (quietWorld 3) 100
         (Num 0) (Num 3) (header 3) emptyState) = OutOfFuel.
Proof.
  apply (batchSize_one_diverges (transferEmitter 1 0 None) (quietWorld 3) 0 3).
  - reflexivity.
  - lia.
  - split; [now exists 3 |]. split; [intros n; now exists (header n) |].
    intros f t tps. now exists [].
  - left. reflexivity.
Defined.

(** A loop of [n] batches that runs to its end leaves the last-fetched
    cursor at the header returned for the end of batch [n - 1]. *)
Lemma batchLoop_cursor this w f t cur n :
  answers w -> insertsAccepted this w ->
  forall fuel batch s,
    0 <= batch < n ->
    n - batch <= Z.of_nat fuel ->
    exists s' hdr,
      batchLoop this w fuel f t cur (Finite n) batch s = (Ok tt, s')
      /\ getBlock w (snd (batchRange this f t (n - 1))) = inr hdr
      /\ lastFetchedBlock s' = Some (number hdr, hash hdr).
Proof.
  intros Hw Hins. pose proof Hw as [_ [Hblock _]].
  induction fuel as [|fuel IH]; intros batch s Hbatch Hfuel; [simpl in Hfuel; lia |].
  cbn [batchLoop ltCount].
  replace (batch <? n) with true by (symmetry; apply Z.ltb_lt; lia).
  destruct (Hblock (snd (batchRange this f t batch))) as [hdr Hhdr].
  unfold bind at 1. unfold await at 1. rewrite Hhdr. unfold ret at 1.
  destruct (succeeds_contract_getPastEvents w Hw
              (Num (fst (batchRange this f t batch)))
              (snd (batchRange this f t batch)) (topics this) s) as [evs [s1 E1]].
  rewrite (bind_ok _ _ _ _ _ E1). cbv beta.
  unfold bind at 1. unfold observe at 1. cbv beta iota.
  match goal with |- context [bind _ _ ?st] =>
    pose proof (succeeds_processEvents this w Hw Hins evs (Some (number cur)) st) as E2
  end.
  destruct E2 as [[] [s2 E2]].
  rewrite (bind_ok _ _ _ _ _ E2). cbv beta.
  unfold bind at 1. unfold setLastFetchedBlock at 1. cbv beta iota.
  destruct (Z.eq_dec (batch + 1) n) as [Hlast | Hmore].
  - replace (n - 1) with batch by lia.
    eexists. exists hdr. split.
    + destruct fuel; cbn [batchLoop ltCount];
        replace (batch + 1 <? n) with false by (symmetry; apply Z.ltb_ge; lia);
        reflexivity.
    + split; [exact Hhdr | reflexivity].
  - apply IH; lia.
Qed.

Lemma last_batch_ends_at_toBlock this f t n :
  f <= t -> 2 <= batchSize this ->
  countOfBatches this f t = Finite n ->
  snd (batchRange this f t (n - 1)) = t.
Proof.
  intros Hft Hb Hn. rewrite batchRange_eq. cbn [snd].
  unfold countOfBatches in Hn.
  destruct (t =? f) eqn:E.
  - apply Z.eqb_eq in E. inversion Hn. subst. lia.
  - apply Z.eqb_neq in E.
    replace (batchSize this - 1 =? 0) with false in Hn by (symmetry; apply Z.eqb_neq; lia).
    inversion Hn as [Hc].
    pose proof (ceilDiv_upper (t - f) (batchSize this - 1) ltac:(lia)) as Hup.
    pose proof (ceilDiv_pos (t - f) (batchSize this - 1) ltac:(lia) ltac:(lia)) as Hpos.
    rewrite Hc in Hup, Hpos. nia.
Qed.

(** The loop over a range that is not inverted, with batches of at least
    2 blocks. *)
Lemma batchLoop_run this w f t cur hdr s :
  f <= t ->
  2 <= batchSize this ->
  answers w ->
  insertsAccepted this w ->
  getBlock w t = inr hdr ->
  exists n fuel s' rest,
    countOfBatches this f t = Finite n
    /\ batchLoop this w fuel f t cur (Finite n) 0 s = (Ok tt, s')
    /\ lastFetchedBlock s' = Some (number hdr, hash hdr)
    /\ trace s' = trace s
                  ++ CallGetPastEvents (Num f) (Z.min (f + batchSize this - 1) t)
                       (topics this) :: rest.
Proof.
  intros Hft Hb Hw Hins Hhdr.
  destruct (countOfBatches_finite this f t Hft Hb) as [n [Hn Hn1]].
  destruct (batchLoop_cursor this w f t cur n Hw Hins (Z.to_nat n) 0 s
              ltac:(lia) ltac:(lia)) as [s' [hdr' [Hrun [Hget Hcur]]]].
  rewrite (last_batch_ends_at_toBlock this f t n Hft Hb Hn), Hhdr in Hget.
  inversion Hget. subst hdr'.
  pose proof Hw as [_ [Hblock _]].
  destruct (Hblock (Z.min (f + batchSize this - 1) t)) as [h0 Hh0].
  assert (Hfuel : exists fuel, Z.to_nat n = S fuel)
    by (exists (Nat.pred (Z.to_nat n)); lia).
  destruct Hfuel as [fuel Hfuel].
  destruct (batchLoop_first_call this w fuel f t cur (Finite n) h0 s)
    as [rest Hrest]; [simpl; apply Z.ltb_lt; lia | exact Hh0 |].
  rewrite <- Hfuel, Hrun in Hrest. simpl in Hrest.
  exists n, (Z.to_nat n), s', rest. auto.
Qed.

(** X6. Over a range [fromBlock, toBlock] that is not inverted, with a
    batch size of at least 2, a node that answers and inserts that are
    accepted, batchFetchAndProcessEvents returns, its first request
    starts at fromBlock, and the last-fetched cursor it leaves is the
    header the node returned for toBlock. *)
Theorem batchFetch_reaches_toBlock (this : Emitter) (w : World) (f t : Z)
    (cur hdr : BlockHeader) (s : State) :
  f <= t ->
  2 <= batchSize this ->
  answers w ->
  insertsAccepted this w ->
  getBlock w t = inr hdr ->
  exists fuel s' rest,
    batchFetchAndProcessEvents this w fuel (Num f) (Num t) cur s = (Ok tt, s')
    /\ lastFetchedBlock s' = Some (number hdr, hash hdr)
    /\ trace s' = trace s
                  ++ CallGetPastEvents (Num f) (Z.min (f + batchSize this - 1) t)
                       (topics this) :: rest.
Proof.
  intros Hft Hb Hw Hins Hhdr.
  destruct (batchLoop_run this w f t cur hdr s Hft Hb Hw Hins Hhdr)
    as [n [fuel [s' [rest [Hn [Hrun [Hcur Htr]]]]]]].
  exists fuel, s', rest.
  unfold batchFetchAndProcessEvents.
  replace (t <? f) with false by (symmetry; apply Z.ltb_ge; lia).
  rewrite Hn. auto.
Qed.

(** An instance of X6: blocks 0 to 9 in batches of 5. *)
Lemma batchFetch_reaches_toBlock_witness :
  exists fuel s' rest,
    batchFetchAndProcessEvents (transferEmitter 5 0 None) (quietWorld 9) fuel
      (Num 0) (Num 9) (header 9) emptyState = (Ok tt, s')
    /\ lastFetchedBlock s' = Some (number (header 9), hash (header 9))
    /\ trace s' = trace emptyState
                  ++ CallGetPastEvents (Num 0)
                       (Z.min (0 + batchSize (transferEmitter 5 0 None) - 1) 9)
                       (topics (transferEmitter 5 0 None)) :: rest.
Proof.
  apply (batchFetch_reaches_toBlock (transferEmitter 5 0 None) (quietWorld 9) 0 9
           (header 9) (header 9) emptyState).
  - lia.
  - simpl. lia.
  - split; [now exists 9 |]. split; [intros n; now exists (header n) |].
    intros f t tps. now exists [].
  - left. reflexivity.
  - reflexivity.
Defined.

(** ** poll *)



(** X8. As long as no last-fetched block is stored, poll ignores the new
    block: it asks the node for nothing and leaves the state as it is,
    whatever the configuration. *)
Theorem poll_without_cursor (this : Emitter) (w : World) (fuel : nat)
    (cur : BlockHeader) (s : State) :
  lastFetchedBlock s = None ->
  poll this w fuel cur s = (Ok tt, s).
Proof.
  intros Hlf.
  assert (Hre : isReorg w s = (Ok false, s))
    by (unfold isReorg, bind, getState; now rewrite Hlf).
  assert (Hcheck : (if truthy (confirmations this) then isReorg w else ret false) s
                   = (Ok false, s))
    by (destruct (truthy (confirmations this)); [exact Hre | reflexivity]).
  assert (Htry : pollTry this w fuel cur s = (Ok Done, s)).
  { unfold pollTry. unfold bind at 1. rewrite Hcheck.
    unfold bind at 1. unfold getState. now rewrite Hlf. }
  unfold poll, bind, try_catch. now rewrite Htry.
Qed.

(** An instance of X8: two confirmations, a node that refuses every log
    request, nothing fetched yet. *)
Lemma poll_without_cursor_witness :
  poll reorgEmitter (failingLogsWorld 10) 3 (header 10) emptyState = (Ok tt, emptyState).
Proof.
  apply (poll_without_cursor reorgEmitter (failingLogsWorld 10) 3 (header 10) emptyState).
  reflexivity.
Defined.

(** ** init and its use by start *)

(** X9. A completed initial catch-up stores the header the node returned
    for the head as the last-fetched block, and an init that finds a
    last-fetched block fetches nothing: it only emits initFinished. *)
Theorem init_once (this : Emitter) (w : World) (s : State)
    (cur hdr : BlockHeader) (k : Z) :
  lastFetchedBlock s = None ->
  getBlockLatest w = inr cur ->
  (startingBlock this = Tag "genesis" /\ k = 0) \/ startingBlock this = Num k ->
  k <= number cur ->
  2 <= batchSize this ->
  answers w ->
  insertsAccepted this w ->
  getBlock w (number cur) = inr hdr ->
  exists fuel s',
    init this w fuel s = (Ok tt, s')
    /\ lastFetchedBlock s' = Some (number hdr, hash hdr)
    /\ forall fuel',
         init this w fuel' s'
         = (Ok tt, mkState (lastFetchedBlock s') (lastProcessedBlock s') (table s')
                           (trace s' ++ [EmitInitFinished])).
Proof.
  intros Hlf Hlatest Hstart Hk Hb Hw Hins Hhdr.
  destruct (batchLoop_run this w k (number cur) cur hdr s Hk Hb Hw Hins Hhdr)
    as [n [fuel [s1 [rest [Hn [Hrun [Hcur _]]]]]]].
  exists fuel. eexists. split; [| split].
  - rewrite (init_without_cursor _ _ _ _ Hlf). unfold bind.
    rewrite (processPastEvents_resolved this w fuel s cur k Hlatest Hstart Hk).
    rewrite Hn, Hrun. reflexivity.
  - exact Hcur.
  - intros fuel'. unfold init, bind, getState. simpl. rewrite Hcur. reflexivity.
Qed.

(** An instance of X9. *)
Lemma init_once_witness :
  exists fuel s',
    init (emitterStartingAt (Tag "genesis") 5) (quietWorld 9) fuel emptyState = (Ok tt, s')
    /\ lastFetchedBlock s' = Some (number (header 9), hash (header 9))
    /\ forall fuel',
         init (emitterStartingAt (Tag "genesis") 5) (quietWorld 9) fuel' s'
         = (Ok tt, mkState (lastFetchedBlock s') (lastProcessedBlock s') (table s')
                           (trace s' ++ [EmitInitFinished])).
Proof.
  apply (init_once (emitterStartingAt (Tag "genesis") 5) (quietWorld 9) emptyState
           (header 9) (header 9) 0).
  - reflexivity.
  - reflexivity.
  - left. split; reflexivity.
  - simpl. lia.
  - simpl. lia.
  - split; [now exists 9 |]. split; [intros n; now exists (header n) |].
    intros f t tps. now exists [].
  - left. reflexivity.
  - reflexivity.
Defined.

(** X10. The initial catch-up that start launches never rejects. When the
    node cannot give the latest block, when startingBlock is a number
    beyond the head, or when it is a string other than "genesis", nothing
    is requested or stored, the failure is the one payload put on the
    error channel, initFinished is not emitted and the emitter stays
    uninitialised, so that the next start tries again. *)
Theorem start_init_reports_failure (this : Emitter) (w : World) (fuel : nat)
    (s : State) :
  lastFetchedBlock s = None ->
  let failed e :=
    (Ok tt, mkState (lastFetchedBlock s) (lastProcessedBlock s) (table s)
                    (trace s ++ [EmitError e]), false) in
  (forall e, getBlockLatest w = inl e ->
     start_init this w fuel false s = failed e)
  /\ (forall cur k, getBlockLatest w = inr cur ->
        startingBlock this = Num k -> number cur < k ->
        start_init this w fuel false s = failed fromBeyondTo)
  /\ (forall cur tag, getBlockLatest w = inr cur ->
        startingBlock this = Tag tag -> tag <> "genesis" ->
        start_init this w fuel false s = failed notNumbers)
  /\ (forall isInitialized st e, fst (fst (start_init this w fuel isInitialized st)) <> Raise e).
Proof.
  intros Hlf failed. unfold failed.
  assert (Hinit : forall r,
            processPastEvents this w fuel (startingBlock this) (Tag "latest") s = (Raise r, s) ->
            start_init this w fuel false s
            = (Ok tt, mkState (lastFetchedBlock s) (lastProcessedBlock s) (table s)
                              (trace s ++ [EmitError r]), false)).
  { intros r Hr. unfold start_init.
    rewrite (init_without_cursor _ _ _ _ Hlf). unfold bind. now rewrite Hr. }
  split; [| split; [| split]].
  - intros e He. apply Hinit. unfold processPastEvents, bind, await.
    now rewrite He.
  - intros cur k Hlatest Hstart Hk. apply Hinit.
    unfold processPastEvents, bind, await. rewrite Hlatest. unfold ret.
    rewrite Hstart. simpl.
    replace (number cur <? k) with true by (symmetry; apply Z.ltb_lt; lia).
    reflexivity.
  - intros cur tag Hlatest Hstart Htag. apply Hinit.
    unfold processPastEvents, bind, await. rewrite Hlatest. unfold ret.
    rewrite Hstart. apply String.eqb_neq in Htag. now rewrite Htag.
  - intros isInitialized st e. unfold start_init.
    destruct isInitialized; [discriminate |].
    destruct (init this w fuel st) as [[[]|e1|] st1]; discriminate.
Qed.

(** An instance of X10: the emitter is to start at block 5 of a chain
    whose head is block 3. *)
Lemma start_init_reports_failure_witness :
  start_init (emitterStartingAt (Num 5) 120) (quietWorld 3) 1 false emptyState
  = (Ok tt, mkState None None [] [EmitError fromBeyondTo], false).
Proof.
  refine (proj1 (proj2 (start_init_reports_failure (emitterStartingAt (Num 5) 120)
                          (quietWorld 3) 1 emptyState _)) (header 3) 5 _ _ _).
  - reflexivity.
  - reflexivity.
  - reflexivity.
  - simpl. lia.
Defined.

(** ** isReorg and handleReorg *)

(** An instance of X11: the header of block 5 has changed, block 2 was
    processed last and its header has changed too. *)
Lemma isReorg_nonzero_witness :
  exists s',
    isReorg (quietWorld 10) (mkState (Some (5, "0xold")) (Some (2, "0xold")) [] [])
    = (Ok true, s')
    /\ trace s' = trace (mkState (Some (5, "0xold")) (Some (2, "0xold")) [] [])
                  ++ (if String.eqb (hash (header 2)) "0xold" then []
                      else [EmitReorgOutOfRange 2])
                  ++ [EmitReorg].
Proof.
  refine (proj2 (proj2 (isReorg_nonzero (quietWorld 10)
                          (mkState (Some (5, "0xold")) (Some (2, "0xold")) [] [])
                          5 "0xold" (header 5) _ _ _) _)
            2 "0xold" (header 2) _ _ _).
  - reflexivity.
  - lia.
  - reflexivity.
  - discriminate.
  - reflexivity.
  - lia.
  - reflexivity.
Defined.

(** X12. isReorg only reads the block tracker and the buffer. It always
    ends; unless it returns true it leaves the state as it was, also
    when a request to the node fails; when it returns true it has put
    reorg on the trace, preceded by at most one reorgOutOfRange, which
    carries the stored last-processed number. *)
Theorem isReorg_frame (w : World) (s s' : State) (r : outcome bool) :
  isReorg w s = (r, s') ->
  r <> OutOfFuel
  /\ lastFetchedBlock s' = lastFetchedBlock s
  /\ lastProcessedBlock s' = lastProcessedBlock s
  /\ table s' = table s
  /\ (r <> Ok true -> s' = s)
  /\ (r = Ok true ->
      exists pre,
        trace s' = trace s ++ pre ++ [EmitReorg]
        /\ (pre = []
            \/ exists n h, lastProcessedBlock s = Some (n, h)
                           /\ pre = [EmitReorgOutOfRange n])).
Proof.
  destruct s as [lf lp tbl tr].
  cbn [lastFetchedBlock lastProcessedBlock table trace].
  set (Post := fun (r0 : outcome bool) (s0 : State) =>
    r0 <> OutOfFuel
    /\ lastFetchedBlock s0 = lf
    /\ lastProcessedBlock s0 = lp
    /\ table s0 = tbl
    /\ (r0 <> Ok true -> s0 = mkState lf lp tbl tr)
    /\ (r0 = Ok true ->
        exists pre,
          trace s0 = tr ++ pre ++ [EmitReorg]
          /\ (pre = [] \/ exists n h, lp = Some (n, h) /\ pre = [EmitReorgOutOfRange n]))).
  change (isReorg w (mkState lf lp tbl tr) = (r, s') -> Post r s').
  assert (Hsame : forall r0, r0 <> OutOfFuel -> r0 <> Ok true ->
            Post r0 (mkState lf lp tbl tr)).
  { intros r0 H1 H2. unfold Post. simpl.
    split; [exact H1 |]. split; [reflexivity |]. split; [reflexivity |].
    split; [reflexivity |]. split; [reflexivity |].
    intros Hr. contradiction. }
  assert (Htrue : forall pre,
            (pre = [] \/ exists n h, lp = Some (n, h) /\ pre = [EmitReorgOutOfRange n]) ->
            Post (Ok true) (mkState lf lp tbl ((tr ++ pre) ++ [EmitReorg]))).
  { intros pre Hpre. unfold Post. simpl.
    split; [discriminate |]. split; [reflexivity |]. split; [reflexivity |].
    split; [reflexivity |]. split; [intros Hn; now elim Hn |].
    intros _. exists pre. split; [now rewrite app_assoc | exact Hpre]. }
  clearbody Post.
  unfold isReorg. unfold bind at 1. unfold getState.
  cbn [lastFetchedBlock lastProcessedBlock].
  destruct lf as [[n h]|];
    [| intros H; inversion H; subst; apply Hsame; discriminate].
  destruct (negb (truthy n));
    [intros H; inversion H; subst; apply Hsame; discriminate |].
  unfold bind at 1. unfold await at 1.
  destruct (getBlock w n) as [e | actual];
    [intros H; inversion H; subst; apply Hsame; discriminate |].
  unfold ret at 1.
  destruct (String.eqb (hash actual) h);
    [intros H; inversion H; subst; apply Hsame; discriminate |].
  destruct lp as [[pn ph]|].
  - destruct (truthy pn).
    + unfold bind at 1. unfold bind at 1. unfold await at 1.
      destruct (getBlock w pn) as [e | actualP];
        [intros H; inversion H; subst; apply Hsame; discriminate |].
      unfold ret at 1.
      destruct (negb (String.eqb (hash actualP) ph)).
      * unfold bind, observe, ret. simpl. intros H. inversion H. subst.
        apply (Htrue [EmitReorgOutOfRange pn]). right. now exists pn, ph.
      * unfold bind, observe, ret. simpl. intros H. inversion H. subst.
        rewrite <- (app_nil_r tr) at 1. apply (Htrue []). now left.
    + unfold bind, observe, ret. simpl. intros H. inversion H. subst.
      rewrite <- (app_nil_r tr) at 1. apply (Htrue []). now left.
  - unfold bind, observe, ret. simpl. intros H. inversion H. subst.
    rewrite <- (app_nil_r tr) at 1. apply (Htrue []). now left.
Qed.

(** An instance of X12: the node fails on the header of the
    last-processed block after the reorg was seen. *)
Lemma isReorg_frame_witness :
  let w := mkWorld (inr 10) (inr (header 10))
             (fun n => if n =? 2 then inl (Foreign "RpcError") else inr (header n))
             (fun _ _ _ => inr []) uniqueKeyFault (fun _ _ => None) (fun _ _ => None) in
  let run := isReorg w reorgState in
  fst run <> OutOfFuel
  /\ lastFetchedBlock (snd run) = lastFetchedBlock reorgState
  /\ lastProcessedBlock (snd run) = lastProcessedBlock reorgState
  /\ table (snd run) = table reorgState
  /\ (fst run <> Ok true -> snd run = reorgState)
  /\ (fst run = Ok true ->
      exists pre,
        trace (snd run) = trace reorgState ++ pre ++ [EmitReorg]
        /\ (pre = []
            \/ exists n h, lastProcessedBlock reorgState = Some (n, h)
                           /\ pre = [EmitReorgOutOfRange n])).
Proof.
  intros w run.
  apply (isReorg_frame w reorgState (snd run) (fst run)).
  apply surjective_pairing.
Defined.

(** X13. A handleReorg that fails never moves the cursors, so the next
    poll sees the reorg again. The failure is one of five: the refetch,
    the missing confirmator, the check for dropped transactions, the
    deletion of the buffered rows, or the classification. In the first
    four the buffer is untouched; when the classification fails, the
    rows of the contract have been deleted already and nothing was
    buffered in their place. *)
Theorem handleReorg_failure (this : Emitter) (w : World) (cur : BlockHeader)
    (s s' : State) (e : exn) :
  handleReorg this w cur s = (Raise e, s') ->
  lastFetchedBlock s' = lastFetchedBlock s
  /\ lastProcessedBlock s' = lastProcessedBlock s
  /\ ((getPastEvents w (reorgFromBlock this s) (number cur) None = inl e
       /\ table s' = table s)
      \/ (confirmator this = None /\ e = noConfirmator /\ table s' = table s)
      \/ (exists refetched,
            getPastEvents w (reorgFromBlock this s) (number cur) None = inr refetched
            /\ confirmator this <> None
            /\ confirmatorFault w (table s) refetched = Some e
            /\ table s' = table s)
      \/ (confirmator this <> None
          /\ destroyFault w (table s) (contract_address this) = Some e
          /\ table s' = table s)
      \/ (exists refetched c s0,
            getPastEvents w (reorgFromBlock this s) (number cur) None = inr refetched
            /\ confirmator this = Some c
            /\ processEvents this w refetched (Some (number cur)) s0 = (Raise e, s0)
            /\ table s0 = rowsOfOthers (contract_address this) (table s)
            /\ table s' = rowsOfOthers (contract_address this) (table s))).
Proof.
  unfold handleReorg. unfold bind at 1. unfold getState.
  unfold bind at 1. unfold contract_getPastEvents.
  unfold bind at 1. unfold observe at 1. unfold await.
  destruct (getPastEvents w (reorgFromBlock this s) (number cur) None)
    as [e0 | refetched].
  - unfold throw. intros H. inversion H. subst. simpl.
    split; [reflexivity |]. split; [reflexivity |]. left. split; reflexivity.
  - unfold ret at 1. unfold bind at 1.
    destruct (confirmator this) as [c|].
    + unfold checkDroppedTransactions at 1. simpl.
      destruct (confirmatorFault w (table s) refetched) as [e1|] eqn:Hcf.
      { intros H. inversion H. subst. simpl.
        split; [reflexivity |]. split; [reflexivity |].
        right. right. left. exists refetched.
        split; [reflexivity |]. split; [discriminate |].
        split; [exact Hcf | reflexivity]. }
      unfold bind at 1. unfold destroy at 1. simpl.
      destruct (destroyFault w (table s) (contract_address this)) as [e1|] eqn:Hdf.
      { intros H. inversion H. subst. simpl.
        split; [reflexivity |]. split; [reflexivity |].
        right. right. right. left.
        split; [discriminate |]. split; reflexivity. }
      unfold bind at 1.
      match goal with |- context [processEvents _ _ _ _ ?st] => set (s0 := st) end.
      destruct (processEvents this w refetched (Some (number cur)) s0)
        as [[[]|e1|] s1] eqn:Hproc;
        [unfold setLastFetchedBlock; discriminate | | discriminate].
      intros H. inversion H. subst.
      pose proof (processEvents_raise_state _ _ _ _ _ _ _ Hproc) as ->.
      split; [reflexivity |]. split; [reflexivity |].
      right. right. right. right. exists refetched, c, s0. auto.
    + unfold throw. intros H. inversion H. subst. simpl.
      split; [reflexivity |]. split; [reflexivity |]. right. left.
      split; [reflexivity |]. split; reflexivity.
Qed.

(** An instance of X13: the storage fails to delete the buffered rows. *)
Lemma handleReorg_failure_witness :
  let w := mkWorld (inr 10) (inr (header 10)) (fun n => inr (header n))
             (fun _ _ _ => inr [transferAt 3 "0xa"]) uniqueKeyFault
             (fun _ _ => Some (Foreign "SequelizeConnectionError"))
             (fun _ _ => None) in
  let e := Foreign "SequelizeConnectionError" in
  let s' := snd (handleReorg reorgEmitter w (header 10) reorgState) in
  lastFetchedBlock s' = lastFetchedBlock reorgState
  /\ lastProcessedBlock s' = lastProcessedBlock reorgState
  /\ ((getPastEvents w (reorgFromBlock reorgEmitter reorgState)
         (number (header 10)) None = inl e
       /\ table s' = table reorgState)
      \/ (confirmator reorgEmitter = None /\ e = noConfirmator
          /\ table s' = table reorgState)
      \/ (exists refetched,
            getPastEvents w (reorgFromBlock reorgEmitter reorgState)
              (number (header 10)) None = inr refetched
            /\ confirmator reorgEmitter <> None
            /\ confirmatorFault w (table reorgState) refetched = Some e
            /\ table s' = table reorgState)
      \/ (confirmator reorgEmitter <> None
          /\ destroyFault w (table reorgState) (contract_address reorgEmitter) = Some e
          /\ table s' = table reorgState)
      \/ (exists refetched c s0,
            getPastEvents w (reorgFromBlock reorgEmitter reorgState)
              (number (header 10)) None = inr refetched
            /\ confirmator reorgEmitter = Some c
            /\ processEvents reorgEmitter w refetched
                 (Some (number (header 10))) s0 = (Raise e, s0)
            /\ table s0 = rowsOfOthers (contract_address reorgEmitter) (table reorgState)
            /\ table s' = rowsOfOthers (contract_address reorgEmitter) (table reorgState))).
Proof.
  intros w e s'.
  apply (handleReorg_failure reorgEmitter w (header 10) reorgState s' e).
  vm_compute. reflexivity.
Defined.

(** ** The constructor and the reorg path *)

(** X14. For an emitter built by the constructor with a number of
    confirmations that is not negative, poll enters the reorg path only
    with confirmations > 0 and a confirmator in place, the one given in
    the options or else one made for the address of the contract. *)
Theorem constructed_reorg_path (sha3 : string -> string) (address : string)
    (options : option EventsEmitterOptions) (this : Emitter) (w : World)
    (fuel : nat) (cur : BlockHeader) (s s1 : State) :
  BaseEventsEmitter_constructor sha3 address options = inr this ->
  0 <= confirmations this ->
  pollTry this w fuel cur s = (Ok ReturnHandleReorg, s1) ->
  0 < confirmations this
  /\ isReorg w s = (Ok true, s1)
  /\ confirmator this
     = Some (match optField options opt_confirmator with
             | Some c => c
             | None => mkConfirmator address
             end).
Proof.
  intros Hbuilt Hge Htry.
  apply pollTry_reorg_inv in Htry. destruct Htry as [Ht Hre].
  unfold truthy in Ht. apply negb_true_iff, Z.eqb_neq in Ht.
  split; [lia |]. split; [exact Hre |].
  revert Hbuilt. unfold BaseEventsEmitter_constructor.
  destruct (hashTopics sha3 (optField options opt_topics));
    destruct (optField options opt_events); try discriminate;
    intros H; inversion H; subst; clear H; simpl in *;
    (replace (0 <? orDefault options opt_confirmations 0) with true
       by (symmetry; apply Z.ltb_lt; lia));
    reflexivity.
Qed.

(** An instance of X14: an emitter built for Transfer with two
    confirmations sees the header of block 5 changed. *)
Lemma constructed_reorg_path_witness :
  0 < confirmations reorgEmitter
  /\ isReorg (quietWorld 10) (mkState (Some (5, "0xold")) None [] [])
     = (Ok true, mkState (Some (5, "0xold")) None [] [EmitReorg])
  /\ confirmator reorgEmitter
     = Some (match optField
                     (Some (mkOptions None (Some ["Transfer"]) None (Some 2) None None
                                      None None)) opt_confirmator with
             | Some c => c
             | None => mkConfirmator "0xC"
             end).
Proof.
  apply (constructed_reorg_path (fun x => x) "0xC"
           (Some (mkOptions None (Some ["Transfer"]) None (Some 2) None None None None))
           reorgEmitter (quietWorld 10) 3 (header 10)
           (mkState (Some (5, "0xold")) None [] [])
           (mkState (Some (5, "0xold")) None [] [EmitReorg])).
  - reflexivity.
  - simpl. lia.
  - vm_compute. reflexivity.
Defined.

(** ** The requests of a reorg cycle *)

Lemma requests_app tr1 tr2 : requests (tr1 ++ tr2) = requests tr1 ++ requests tr2.
Proof. unfold requests. apply flat_map_app. Qed.

Lemma requests_newEvents l : requests (map EmitNewEvent l) = [].
Proof. induction l; auto. Qed.

Lemma requests_invalid l : requests (map EmitInvalidConfirmation l) = [].
Proof. induction l; auto. Qed.

Lemma processEvents_emits_only this w events cbn s r s' :
  processEvents this w events cbn s = (r, s') ->
  exists l, trace s' = trace s ++ map EmitNewEvent l.
Proof.
  assert (Hnil : forall st : State, exists l, trace st = trace st ++ map EmitNewEvent l)
    by (intros st; exists []; simpl; now rewrite app_nil_r).
  unfold processEvents. unfold bind at 1.
  destruct (currentBlockNumberOr w cbn s) as [[n|e1|] s1] eqn:Hcur;
    pose proof (currentBlockNumberOr_state _ _ _ _ _ Hcur) as ->;
    try (intros H; inversion H; subst; apply Hnil).
  destruct (List.length (filterByNames this events) =? 0)%nat;
    [unfold ret; intros H; inversion H; subst; apply Hnil |].
  destruct (confirmations this =? 0).
  - destruct (emitEvents_run (filterByNames this events) s) as [lp Hemit].
    rewrite Hemit. intros H. inversion H. subst. simpl. eexists. reflexivity.
  - unfold bind, try_catch, bulkCreate.
    destruct (insertFault w (table s) _) as [e1|].
    + destruct (String.eqb (exn_name e1) _); unfold throw;
        intros H; inversion H; subst; apply Hnil.
    + match goal with |- context [emitEvents ?l ?s1] =>
        destruct (emitEvents_run l s1) as [lp Hemit]; rewrite Hemit end.
      intros H. inversion H. subst. simpl. eexists. reflexivity.
Qed.

Lemma isReorg_true_requests w s s1 :
  isReorg w s = (Ok true, s1) ->
  lastProcessedBlock s1 = lastProcessedBlock s
  /\ requests (trace s1) = requests (trace s).
Proof.
  destruct s as [lf lp tbl tr]. unfold isReorg. unfold bind at 1. unfold getState.
  cbn [lastFetchedBlock lastProcessedBlock].
  destruct lf as [[n h]|]; [| discriminate].
  destruct (negb (truthy n)); [discriminate |].
  unfold bind at 1. unfold await at 1.
  destruct (getBlock w n) as [e | actual]; [discriminate |].
  unfold ret at 1.
  destruct (String.eqb (hash actual) h); [discriminate |].
  destruct lp as [[pn ph]|]; [destruct (truthy pn) |].
  - unfold bind at 1. unfold bind at 1. unfold await at 1.
    destruct (getBlock w pn) as [e | actualP]; [discriminate |].
    unfold ret at 1.
    destruct (negb (String.eqb (hash actualP) ph));
      unfold bind, observe, ret; simpl; intros H; inversion H; subst; simpl;
      (split; [reflexivity |]); rewrite !requests_app; simpl;
      now rewrite !app_nil_r.
  - unfold bind, observe, ret. simpl. intros H. inversion H. subst. simpl.
    split; [reflexivity |]. rewrite !requests_app. simpl. now rewrite !app_nil_r.
  - unfold bind, observe, ret. simpl. intros H. inversion H. subst. simpl.
    split; [reflexivity |]. rewrite !requests_app. simpl. now rewrite !app_nil_r.
Qed.

Lemma handleReorg_requests this w cur s r s' :
  handleReorg this w cur s = (r, s') ->
  requests (trace s')
  = requests (trace s) ++ [(reorgFromBlock this s, number cur, None)].
Proof.
  unfold handleReorg. unfold bind at 1. unfold getState.
  unfold bind at 1. unfold contract_getPastEvents.
  unfold bind at 1. unfold observe at 1. unfold await.
  destruct (getPastEvents w (reorgFromBlock this s) (number cur) None)
    as [e0 | refetched].
  - unfold throw. intros H. inversion H. subst. simpl. now rewrite requests_app.
  - unfold ret at 1. unfold bind at 1.
    destruct (confirmator this) as [c|].
    + unfold checkDroppedTransactions at 1. simpl.
      destruct (confirmatorFault w (table s) refetched) as [e1|];
        [intros H; inversion H; subst; simpl; now rewrite requests_app |].
      unfold bind at 1. unfold destroy at 1. simpl.
      destruct (destroyFault w (table s) (contract_address this)) as [e1|];
        [intros H; inversion H; subst; simpl;
         now rewrite !requests_app, requests_invalid, app_nil_r |].
      unfold bind at 1.
      match goal with |- context [processEvents _ _ _ _ ?st] => set (s0 := st) end.
      destruct (processEvents this w refetched (Some (number cur)) s0)
        as [r1 s1] eqn:Hproc.
      destruct (processEvents_emits_only _ _ _ _ _ _ _ Hproc) as [emitted Htr].
      assert (Hreq : requests (trace s1)
                     = requests (trace s)
                       ++ [(reorgFromBlock this s, number cur, None)]).
      { rewrite Htr. unfold s0. simpl.
        now rewrite !requests_app, requests_newEvents, requests_invalid, !app_nil_r. }
      destruct r1 as [[]|e1|]; unfold setLastFetchedBlock;
        intros H; inversion H; subst; exact Hreq.
    + unfold throw. intros H. inversion H. subst. simpl. now rewrite requests_app.
Qed.

(** X15. A poll cycle that detects a reorg makes exactly one log
    request, whatever its outcome: the refetch up to the polled block,
    not split into batches and without the topics of the emitter. *)
Theorem poll_reorg_single_request (this : Emitter) (w : World) (fuel : nat)
    (cur : BlockHeader) (s s1 s' : State) (r : outcome unit) :
  pollTry this w fuel cur s = (Ok ReturnHandleReorg, s1) ->
  poll this w fuel cur s = (r, s') ->
  requests (trace s')
  = requests (trace s) ++ [(reorgFromBlock this s, number cur, None)].
Proof.
  intros Htry Hpoll.
  unfold poll, bind, try_catch in Hpoll. rewrite Htry in Hpoll.
  apply handleReorg_requests in Hpoll. rewrite Hpoll.
  apply pollTry_reorg_inv in Htry. destruct Htry as [_ Hre].
  destruct (isReorg_true_requests _ _ _ Hre) as [Hlp Hreq].
  assert (Hfrom : reorgFromBlock this s1 = reorgFromBlock this s)
    by (unfold reorgFromBlock; now rewrite Hlp).
  now rewrite Hfrom, Hreq.
Qed.

(** An instance of X15: an emitter with topics and two confirmations
    sees the header of block 5 changed when block 10 arrives. *)
Lemma poll_reorg_single_request_witness :
  let this := mkEmitter (Tag "genesis") None 2 (Some [One "0xTransferTopic"]) 5
                        (Some (mkConfirmator "0xC")) "0xC" false false in
  let s := mkState (Some (5, "0xold")) (Some (2, "0xh")) [] [] in
  requests (trace (snd (poll this reorgWorld 3 (header 10) s)))
  = requests (trace s) ++ [(reorgFromBlock this s, number (header 10), None)].
Proof.
  intros this s.
  apply (poll_reorg_single_request this reorgWorld 3 (header 10) s
           (mkState (Some (5, "0xold")) (Some (2, "0xh")) [] [EmitReorg])
           (snd (poll this reorgWorld 3 (header 10) s))
           (fst (poll this reorgWorld 3 (header 10) s))).
  - vm_compute. reflexivity.
  - apply surjective_pairing.
Defined.

(** ** C8: the requests of the initial catch-up *)




